(** * FrpManager: configuration registry and process supervision

    A shallow embedding of [FrpManager.ts] (the class [FrpManager] of the
    Electron main process) and of the properties its specification states.

    JavaScript objects are shared and mutated in place: [this.configs] is an
    array of references to [FrpConfig] objects, the closures registered on a
    child process keep the reference of the object passed to [startFrp], and
    an object that arrives over IPC is a fresh copy.  The model therefore has
    an object store ([heap]) and [this.configs] is a list of references.

    What is outside the class is kept as explicit world state:
    - the two kinds of files the manager touches under [~/.frp-manager]
      ([configs.json] and one [<id>.toml] per started configuration);
    - the messages sent to the renderer ([webContents.send]), in order;
    - the child processes created by [spawn], the listeners registered on
      them and the children that were sent a signal by [kill()];
    - the outcome of each awaited file-system call and of each [spawn], and
      what a rejected [writeFile] leaves in its file, read from scripts, so
      that every environment behaviour is covered;
    - the events of child processes that are delivered while a method that
      stops or starts a process is suspended at the [await] of its file
      write.

    [console.log]/[console.error] have no effect on any of this and are left
    out.  [this.mainWindow] is assigned once, in the constructor, from a
    non-null [BrowserWindow], so the guards [if (this.mainWindow)] of the two
    notify methods always pass.  Two calls of the manager are not interleaved
    at their [await]s.

    The state of the model holds a manager whose [this.configs] is an array
    of configuration objects.  A [configs.json] that parses to another value
    takes the manager out of these states; the model says so ([Outside])
    and follows it no further. *)

From Stdlib Require Import ZArith String DecimalString.
From stdpp Require Import gmap strings list fin_maps.

Open Scope string_scope.
Open Scope list_scope.

(** ** JavaScript completions: a call returns normally or throws an [Error].
    [Outside] marks a call after which the manager is in none of the states
    of this model; it is not an exception and no handler catches it. *)

Record Error := mkError { message : string }.

Inductive Completion (A : Type) :=
| Normal (a : A)
| Throw (e : Error)
| Outside (what : string).
Arguments Normal {A} a.
Arguments Throw {A} e.
Arguments Outside {A} what.

Definition is_thrown {A} (r : Completion A) : bool :=
  match r with Throw _ => true | _ => false end.

(** The error of a rejected [saveConfig]:
    [new Error('TOML 配置格式无效: ' + message)]. *)
Definition InvalidConfig (msg : string) : Error :=
  mkError ("TOML 配置格式无效: " +:+ msg).

(** ** The monad of methods: state passing with exceptions.  A thrown
    exception keeps the state reached so far (nothing is rolled back). *)

Definition Method (St A : Type) : Type := St -> Completion A * St.

Definition ret {St A} (a : A) : Method St A := fun s => (Normal a, s).

Definition bind {St A B} (m : Method St A) (f : A -> Method St B) : Method St B :=
  fun s => match m s with
           | (Normal a, s') => f a s'
           | (Throw e, s') => (Throw e, s')
           | (Outside w, s') => (Outside w, s')
           end.

Definition throw {St A} (e : Error) : Method St A := fun s => (Throw e, s).

Definition try_catch {St A} (m : Method St A) (handler : Error -> Method St A)
    : Method St A :=
  fun s => match m s with
           | (Normal a, s') => (Normal a, s')
           | (Throw e, s') => handler e s'
           | (Outside w, s') => (Outside w, s')
           end.

Definition outside {St A} (what : string) : Method St A := fun s => (Outside what, s).

Definition gets {St A} (f : St -> A) : Method St A := fun s => (Normal (f s), s).

Definition modify {St} (f : St -> St) : Method St unit := fun s => (Normal tt, f s).

Notation "x <~ m ; k" := (bind m (fun x => k))
  (at level 20, m at level 100, k at level 200,
   format "'[v' x  <~  m ; '/' k ']'").
Notation "m ;;; k" := (bind m (fun _ => k))
  (at level 100, k at level 200, right associativity,
   format "'[v' m  ;;; '/' k ']'").

(** Object references and child-process handles. *)
Abbreviation loc := nat.
Abbreviation ChildProcess := nat.

(** ** Library functions whose result the manager only passes on *)

(** [path.join(...segments)] of Node.js. *)
Class PathLib := path_join : list string -> string.

(** What [JSON.parse] gives back for the text [JSON.stringify] wrote for a
    parsed TOML document.  It need not be the document: a date becomes a
    string, [Infinity] and [NaN] become [null]. *)
Class JsonLib (Parsed : Type) := JSON_roundtrip : Parsed -> Parsed.

Section Model.

(** [TOML.parse] of [@iarna/toml] is a library function: it returns the parsed
    document or throws an error with a message. *)
Context {Parsed : Type} {jsonlib : JsonLib Parsed} {pathlib : PathLib}.
Variable TOML_parse : string -> Parsed + string.

(** [interface FrpConfig] *)
Record FrpConfig := mkFrpConfig {
  id : string;
  name : string;
  config : string;
  isRunning : bool;
  autoStart : bool;
  parsedConfig : option Parsed;
}.

Definition with_isRunning (b : bool) (v : FrpConfig) : FrpConfig :=
  mkFrpConfig (id v) (name v) (config v) b (autoStart v) (parsedConfig v).

Definition with_parsedConfig (p : Parsed) (v : FrpConfig) : FrpConfig :=
  mkFrpConfig (id v) (name v) (config v) (isRunning v) (autoStart v) (Some p).

(** Messages sent to the renderer window: ['frp-status-changed'] carries a
    copy of the configuration object as it is at the time of the send,
    ['frp-error'] carries [{ configId, error }]. *)
Inductive Event :=
| StatusChanged (snapshot : FrpConfig)
| FrpError (configId : string) (error : string).

(** The record [JSON.parse] builds from the text [JSON.stringify] wrote for
    a record: strings and booleans come back as they were, the parsed
    document comes back as its JSON image. *)
Definition reloaded (v : FrpConfig) : FrpConfig :=
  mkFrpConfig (id v) (name v) (config v) (isRunning v) (autoStart v)
    (JSON_roundtrip <$> parsedConfig v).

(** Content of [configs.json].
    - [JsonText records]: the text [JSON.stringify(this.configs, null, 2)]
      writes for an array holding these records (all the enumerable fields
      of each object, so [isRunning] and [parsedConfig] are part of it);
      [JSON.parse] of it gives the array of the [reloaded] records.
    - [Garbage text]: a text on which [JSON.parse] throws.
    - [IllShaped text]: a text that [JSON.parse] accepts and whose value is
      not an array of configuration records (an object, [null], a number, an
      array with an element that is not such a record, ...). *)
Inductive FileContent :=
| JsonText (records : list FrpConfig)
| Garbage (text : string)
| IllShaped (text : string).

(** What a rejected [fs.writeFile] leaves in its file.  The file is opened
    with flag ['w']: it is untouched when the call fails before or at the
    open (also when the argument could not be computed), it holds a proper
    prefix of the data when the call fails after the open (the empty text
    when nothing was written), and it holds the data when only the end of
    the call fails. *)
Inductive Torn :=
| Untouched
| Partial (text : string)
| Complete.

(** Events delivered by a child process to the listeners of [startFrp]. *)
Inductive ChildEvent :=
| StdoutData (data : string)
| StderrData (data : string)
| Close (code : option Z)
| ProcessError (msg : string).

Record State := mkState {
  (* fields of the class *)
  processes : gmap string ChildProcess;
  architecture : string;
  binPath : string;
  configs : list loc;
  (* object store *)
  heap : gmap loc FrpConfig;
  (* files under configDir *)
  configs_json : option FileContent;
  toml_files : gmap string string;
  (* messages sent to the window, oldest first *)
  events : list Event;
  (* children: the [-c] argument each was spawned with, the configuration
     object its listeners closed over, and who was sent a signal *)
  spawned : gmap ChildProcess string;
  listeners : gmap ChildProcess loc;
  signalled : gset ChildProcess;
  (* environment: outcome of the next file-system calls and spawns
     ([None]: success, [Some msg]: failure with that message; an exhausted
     script means success) *)
  fs_script : list (option string);
  spawn_script : list (option string);
  (* environment: what the next rejected [writeFile] calls leave in their
     file (an exhausted script means untouched) *)
  torn_script : list Torn;
  (* ghost: every change of [this.configs], with the number of messages
     that had been sent when it was made; no method reads it *)
  list_history : list (nat * list loc);
}.

Definition set_processes (x : gmap string ChildProcess) (s : State) : State :=
  mkState x (architecture s) (binPath s) (configs s) (heap s) (configs_json s)
    (toml_files s) (events s) (spawned s) (listeners s) (signalled s)
    (fs_script s) (spawn_script s) (torn_script s) (list_history s).
(** Every change of [this.configs] (an assignment, or an update of the array
    in place) is made by [set_configs], which notes it in the history. *)
Definition set_configs (x : list loc) (s : State) : State :=
  mkState (processes s) (architecture s) (binPath s) x (heap s) (configs_json s)
    (toml_files s) (events s) (spawned s) (listeners s) (signalled s)
    (fs_script s) (spawn_script s) (torn_script s)
    (list_history s ++ [(length (events s), x)]).
Definition set_heap (x : gmap loc FrpConfig) (s : State) : State :=
  mkState (processes s) (architecture s) (binPath s) (configs s) x (configs_json s)
    (toml_files s) (events s) (spawned s) (listeners s) (signalled s)
    (fs_script s) (spawn_script s) (torn_script s) (list_history s).
Definition set_configs_json (x : option FileContent) (s : State) : State :=
  mkState (processes s) (architecture s) (binPath s) (configs s) (heap s) x
    (toml_files s) (events s) (spawned s) (listeners s) (signalled s)
    (fs_script s) (spawn_script s) (torn_script s) (list_history s).
Definition set_toml_files (x : gmap string string) (s : State) : State :=
  mkState (processes s) (architecture s) (binPath s) (configs s) (heap s) (configs_json s)
    x (events s) (spawned s) (listeners s) (signalled s)
    (fs_script s) (spawn_script s) (torn_script s) (list_history s).
Definition set_events (x : list Event) (s : State) : State :=
  mkState (processes s) (architecture s) (binPath s) (configs s) (heap s) (configs_json s)
    (toml_files s) x (spawned s) (listeners s) (signalled s)
    (fs_script s) (spawn_script s) (torn_script s) (list_history s).
Definition set_spawned (x : gmap ChildProcess string) (s : State) : State :=
  mkState (processes s) (architecture s) (binPath s) (configs s) (heap s) (configs_json s)
    (toml_files s) (events s) x (listeners s) (signalled s)
    (fs_script s) (spawn_script s) (torn_script s) (list_history s).
Definition set_listeners (x : gmap ChildProcess loc) (s : State) : State :=
  mkState (processes s) (architecture s) (binPath s) (configs s) (heap s) (configs_json s)
    (toml_files s) (events s) (spawned s) x (signalled s)
    (fs_script s) (spawn_script s) (torn_script s) (list_history s).
Definition set_signalled (x : gset ChildProcess) (s : State) : State :=
  mkState (processes s) (architecture s) (binPath s) (configs s) (heap s) (configs_json s)
    (toml_files s) (events s) (spawned s) (listeners s) x
    (fs_script s) (spawn_script s) (torn_script s) (list_history s).
Definition set_fs_script (x : list (option string)) (s : State) : State :=
  mkState (processes s) (architecture s) (binPath s) (configs s) (heap s) (configs_json s)
    (toml_files s) (events s) (spawned s) (listeners s) (signalled s)
    x (spawn_script s) (torn_script s) (list_history s).
Definition set_spawn_script (x : list (option string)) (s : State) : State :=
  mkState (processes s) (architecture s) (binPath s) (configs s) (heap s) (configs_json s)
    (toml_files s) (events s) (spawned s) (listeners s) (signalled s)
    (fs_script s) x (torn_script s) (list_history s).
Definition set_torn_script (x : list Torn) (s : State) : State :=
  mkState (processes s) (architecture s) (binPath s) (configs s) (heap s) (configs_json s)
    (toml_files s) (events s) (spawned s) (listeners s) (signalled s)
    (fs_script s) (spawn_script s) x (list_history s).

(** A method: a computation on the state. *)
Definition M : Type -> Type := Method State.

(** Reading a field of the object behind a reference.  Every reference a
    JavaScript program holds is live; a dangling one is modelled as a thrown
    [TypeError] so that no value is invented for it. *)
Definition deref (c : loc) : M FrpConfig :=
  fun s => match heap s !! c with
           | Some v => (Normal v, s)
           | None => (Throw (mkError "TypeError: dangling reference"), s)
           end.

(** Writing the object behind a reference. *)
Definition store (c : loc) (v : FrpConfig) : M unit :=
  modify (fun s => set_heap (<[c := v]> (heap s)) s).

(** A new object (an argument deserialised from an IPC message, or an element
    of the array built by [JSON.parse]). *)
Definition new_object (v : FrpConfig) : M loc :=
  fun s => let c := fresh (dom (heap s)) in
           (Normal c, set_heap (<[c := v]> (heap s)) s).

(** The outcome a script gives to the next call: [Some msg] when it fails
    with that message, [None] when it succeeds (also when the script is
    exhausted). *)
Definition next_failure (script : list (option string)) : option string :=
  match script with
  | Some msg :: _ => Some msg
  | _ => None
  end.

(** One awaited call of [fs/promises] that writes no file ([mkdir],
    [access], [chmod] and [readFile]): it consumes the head of the script,
    which decides whether the call is rejected. *)
Definition fs_call : M unit :=
  fun s =>
    let s' := set_fs_script (tail (fs_script s)) s in
    match next_failure (fs_script s) with
    | Some msg => (Throw (mkError msg), s')
    | None => (Normal tt, s')
    end.

(** The state a rejected [writeFile] leaves.  [put None] stores the data in
    the file, [put (Some text)] stores [text]. *)
Definition after_failed_write (put : option string -> State -> State)
    (s : State) : State :=
  match torn_script s with
  | [] => s
  | Untouched :: rest => set_torn_script rest s
  | Partial text :: rest => put (Some text) (set_torn_script rest s)
  | Complete :: rest => put None (set_torn_script rest s)
  end.

(** One awaited [fs.writeFile(path, data)].  It consumes the head of the
    script of file-system outcomes; when the call is rejected, the head of
    [torn_script] says what is left in the file.  A failure of the whole
    statement [await fs.writeFile(path, JSON.stringify(...))] that comes from
    [JSON.stringify] is a rejected call that leaves the file untouched. *)
Definition writeFile (put : option string -> State -> State) : M unit :=
  fun s =>
    let s' := set_fs_script (tail (fs_script s)) s in
    match next_failure (fs_script s) with
    | Some msg => (Throw (mkError msg), after_failed_write put s')
    | None => (Normal tt, put None s')
    end.

(** Writing [configs.json] and the TOML file of an id. *)
Definition put_configs (data : list FrpConfig) (remains : option string)
    (s : State) : State :=
  set_configs_json
    (Some match remains with
          | None => JsonText data
          | Some text => Garbage text
          end) s.

Definition put_toml (cid data : string) (remains : option string)
    (s : State) : State :=
  set_toml_files (<[cid := default data remains]> (toml_files s)) s.

(** ** Notifications *)

(** [notifyStatusChange(config)]: sends the object as it is now. *)
Definition notifyStatusChange (c : loc) : M unit :=
  v <~ deref c ;
  modify (fun s => set_events (events s ++ [StatusChanged v]) s).

(** [notifyError(configId, error)] *)
Definition notifyError (configId : string) (error : string) : M unit :=
  modify (fun s => set_events (events s ++ [FrpError configId error]) s).

(** ** Architecture *)

(** [detectArchitecture()], as a function of the value of [os.arch()]. *)
Definition detectArchitecture (os_arch : string) : string :=
  if bool_decide (os_arch = "arm64") then "arm64" else "x64".

(** [getArchitecture()] *)
Definition getArchitecture : M string := gets architecture.

(** [getBinaryPath()]: [assets] is [app.getAppPath()] in development and
    [process.resourcesPath] in a packaged application. *)
Definition getBinaryPath (assets : string) (arch : string) : string :=
  path_join [assets; "assets"; "bin"; "darwin"; arch; "frpc"].

(** The constructor, run in a world with the given files and environment
    scripts: an empty process table and an empty configuration list. *)
Definition new_FrpManager (os_arch assets : string)
    (json : option FileContent) (tomls : gmap string string)
    (fs spawns : list (option string)) (torn : list Torn) : State :=
  let arch := detectArchitecture os_arch in
  mkState ∅ arch (getBinaryPath assets arch) [] ∅ json tomls [] ∅ ∅ ∅ fs spawns
    torn [].

(** ** The configuration registry *)

(** The test [c => c.id === id] on a reference. *)
Definition has_id (s : State) (cid : string) (c : loc) : bool :=
  match heap s !! c with
  | Some v => bool_decide (id v = cid)
  | None => false
  end.

(** [Array.prototype.findIndex], [None] standing for [-1]. *)
Fixpoint findIndex {A} (p : A -> bool) (l : list A) : option nat :=
  match l with
  | [] => None
  | x :: l' => if p x then Some 0 else S <$> findIndex p l'
  end.

(** [getConfig(id)]: [this.configs.find(c => c.id === id)] *)
Definition getConfig (cid : string) : M (option loc) :=
  gets (fun s => List.find (has_id s cid) (configs s)).

(** [getConfigs()] *)
Definition getConfigs : M (list loc) := gets configs.

(** The array of records [JSON.stringify(this.configs, null, 2)] writes. *)
Definition snapshot (s : State) : list FrpConfig :=
  omap (fun c => heap s !! c) (configs s).

(** ** The listeners [startFrp] registers on a child.  [c] is the [config]
    the closures captured. *)

(** [frpcProcess.stdout.on('data', ...)]: logs only. *)
Definition on_stdout (c : loc) (data : string) : M unit :=
  v <~ deref c ;
  ret tt.

(** [frpcProcess.stderr.on('data', ...)] *)
Definition on_stderr (c : loc) (data : string) : M unit :=
  v <~ deref c ;
  notifyError (id v) data.

(** The text of an exit code inside a template literal. *)
Definition show_code (code : Z) : string :=
  NilZero.string_of_int (Z.to_int code).

(** [frpcProcess.on('close', (code) => ...)]; [None] is a [null] code. *)
Definition on_close (c : loc) (code : option Z) : M unit :=
  v <~ deref c ;
  let name := name v in
  modify (fun s => set_processes (delete (id v) (processes s)) s) ;;;
  store c (with_isRunning false v) ;;;
  notifyStatusChange c ;;;
  match code with
  | Some n =>
      if bool_decide (n ≠ 0%Z)
      then notifyError name ("进程退出，退出码: " +:+ show_code n)
      else ret tt
  | None => ret tt
  end.

(** [frpcProcess.on('error', (error) => ...)] *)
Definition on_error (c : loc) (msg : string) : M unit :=
  v <~ deref c ;
  modify (fun s => set_processes (delete (id v) (processes s)) s) ;;;
  store c (with_isRunning false v) ;;;
  notifyStatusChange c ;;;
  notifyError (id v) msg.

(** Delivery of an event of child [p] to the listeners registered on it. *)
Definition dispatch (p : ChildProcess) (ev : ChildEvent) : M unit :=
  l <~ gets (fun s => listeners s !! p) ;
  match l with
  | Some c =>
      match ev with
      | StdoutData data => on_stdout c data
      | StderrData data => on_stderr c data
      | Close code => on_close c code
      | ProcessError msg => on_error c msg
      end
  | None => ret tt
  end.

(** The events of children delivered while a method is suspended at the
    [await] of a file-system call, in order.  Each is handled by its
    listeners as a task of its own: the awaiting method sees the state they
    leave, not what they return. *)
Definition deliver (arrivals : list (ChildProcess * ChildEvent)) : M unit :=
  modify (fun s => foldl (fun s a => snd (dispatch a.1 a.2 s)) s arrivals).

(** ** Saving *)

(** [await fs.writeFile(this.configPath, JSON.stringify(this.configs, null, 2))],
    with the events that arrive during the [await]: the text is computed
    before the method is suspended. *)
Definition write_configs_during (arrivals : list (ChildProcess * ChildEvent))
    : M unit :=
  data <~ gets snapshot ;
  deliver arrivals ;;;
  writeFile (put_configs data).

(** The same when no event arrives during the [await]. *)
Definition write_configs : M unit := write_configs_during [].

(** [saveConfig(config)] *)
Definition saveConfig (c : loc) : M unit :=
  try_catch
    (v <~ deref c ;
     p <~ match TOML_parse (config v) with
          | inl p => ret p
          | inr msg => throw (mkError msg)
          end ;
     store c (with_parsedConfig p v) ;;;
     index <~ gets (fun s => findIndex (has_id s (id v)) (configs s)) ;
     match index with
     | Some i => modify (fun s => set_configs (<[i := c]> (configs s)) s)
     | None => modify (fun s => set_configs (configs s ++ [c]) s)
     end ;;;
     write_configs)
    (fun error => throw (InvalidConfig (message error))).

(** ** Process supervision *)

(** [spawn(this.binPath, ['-c', configPath])]: throws, or returns a new child
    process.  The child is recorded with the configuration id its [-c] file is
    named after. *)
Definition spawn (arg : string) : M ChildProcess :=
  fun s =>
    let s' := set_spawn_script (tail (spawn_script s)) s in
    match next_failure (spawn_script s) with
    | Some msg => (Throw (mkError msg), s')
    | None =>
        let p := fresh (dom (spawned s)) in
        (Normal p, set_spawned (<[p := arg]> (spawned s)) s')
    end.

(** [startFrp(config)], with the events that arrive while the write of the
    TOML file is awaited.  The path and the text are read from the object
    before the method is suspended; the statements after the [await] read
    the object again. *)
Definition startFrp_during (arrivals : list (ChildProcess * ChildEvent))
    (c : loc) : M unit :=
  v <~ deref c ;
  deliver arrivals ;;;
  writeFile (put_toml (id v) (config v)) ;;;
  frpcProcess <~ spawn (id v) ;
  v' <~ deref c ;
  modify (fun s => set_processes (<[id v' := frpcProcess]> (processes s)) s) ;;;
  store c (with_isRunning true v') ;;;
  notifyStatusChange c ;;;
  modify (fun s => set_listeners (<[frpcProcess := c]> (listeners s)) s).

(** The same when no event arrives during the [await]. *)
Definition startFrp (c : loc) : M unit := startFrp_during [] c.

(** [stopFrp(config)]: it awaits nothing. *)
Definition stopFrp (c : loc) : M unit :=
  v <~ deref c ;
  process <~ gets (fun s => processes s !! id v) ;
  match process with
  | Some p =>
      modify (fun s => set_signalled ({[p]} ∪ signalled s) s) ;;;
      modify (fun s => set_processes (delete (id v) (processes s)) s) ;;;
      store c (with_isRunning false v) ;;;
      notifyStatusChange c
  | None => ret tt
  end.

(** [restartFrp(config)], with the events that arrive while the start awaits
    its write; the child that [stopFrp] has just sent a signal may close
    then. *)
Definition restartFrp_during (arrivals : list (ChildProcess * ChildEvent))
    (c : loc) : M unit :=
  stopFrp c ;;; startFrp_during arrivals c.

Definition restartFrp (c : loc) : M unit := restartFrp_during [] c.

(** [deleteConfig(id)], with the events that arrive while the write of
    [configs.json] is awaited. *)
Definition deleteConfig_during (arrivals : list (ChildProcess * ChildEvent))
    (cid : string) : M unit :=
  found <~ getConfig cid ;
  match found with
  | Some c =>
      stopFrp c ;;;
      modify (fun s =>
        set_configs (List.filter (fun c' => negb (has_id s cid c')) (configs s)) s) ;;;
      write_configs_during arrivals
  | None => ret tt
  end.

Definition deleteConfig (cid : string) : M unit := deleteConfig_during [] cid.

(** [cleanup()]: every tracked process is sent a signal and removed from the
    table. *)
Definition cleanup : M unit :=
  modify (fun s =>
    set_processes ∅ (set_signalled (map_img (processes s) ∪ signalled s) s)).

(** ** Start-up *)

(** [initBinary()] *)
Definition initBinary : M unit :=
  try_catch
    (fs_call ;;; fs_call)
    (fun _ =>
       path <~ gets binPath ;
       throw (mkError ("找不到 frpc 二进制文件或无法访问：" +:+ path))).

(** The objects of the array [JSON.parse] builds. *)
Fixpoint new_objects (vs : list FrpConfig) : M (list loc) :=
  match vs with
  | [] => ret []
  | v :: vs' =>
      c <~ new_object v ;
      cs <~ new_objects vs' ;
      ret (c :: cs)
  end.

(** [initConfigs()].  [this.configs = JSON.parse(data)] takes whatever value
    the text has; when that is not an array of configuration records the
    manager is outside the states of the model. *)
Definition initConfigs : M unit :=
  try_catch
    (fs_call ;;;
     data <~ gets configs_json ;
     match data with
     | Some (JsonText records) =>
         cs <~ new_objects (reloaded <$> records) ;
         modify (set_configs cs)
     | Some (Garbage _) => throw (mkError "SyntaxError")
     | Some (IllShaped _) =>
         outside "this.configs is not an array of configuration records"
     | None => throw (mkError "ENOENT")
     end)
    (fun _ => modify (set_configs [])).

(** The body of the loop of [startAutoStartConfigs()] *)
Definition autoStartConfig (c : loc) : M unit :=
  v <~ deref c ;
  if autoStart v && negb (isRunning v)
  then try_catch (startFrp c)
         (fun error => notifyError (id v) ("自动启动失败: " +:+ message error))
  else ret tt.

Fixpoint for_of {A} (l : list A) (body : A -> M unit) : M unit :=
  match l with
  | [] => ret tt
  | x :: l' => body x ;;; for_of l' body
  end.

(** [startAutoStartConfigs()] *)
Definition startAutoStartConfigs : M unit :=
  cs <~ gets configs ;
  for_of cs autoStartConfig.

(** [init()] *)
Definition init : M unit :=
  fs_call ;;;
  initBinary ;;;
  initConfigs ;;;
  startAutoStartConfigs.

(** ** The calls that reach the manager ([main.ts])

    The IPC handlers receive their [FrpConfig] argument as a copy and pass
    it on, rethrowing what the manager throws.  The click handlers of the
    tray menu close over the objects of [getConfigs()] themselves, and report
    what the manager throws as an ['frp-error'] message. *)

(** The click handler of the start/stop item of a configuration. *)
Definition tray_toggle (c : loc) : M unit :=
  v <~ deref c ;
  try_catch
    (if isRunning v then stopFrp c else startFrp c)
    (fun error => notifyError (id v) (message error)).

(** The click handler of the restart item of a configuration. *)
Definition tray_restart (c : loc) : M unit :=
  v <~ deref c ;
  try_catch
    (restartFrp c)
    (fun error => notifyError (id v) (message error)).

Inductive Op :=
| OpInit
| OpSave (v : FrpConfig)
| OpDelete (cid : string)
| OpStart (v : FrpConfig)
| OpStop (v : FrpConfig)
| OpRestart (v : FrpConfig)
| OpTrayToggle (c : loc)
| OpTrayRestart (c : loc)
| OpCleanup
| OpChild (p : ChildProcess) (ev : ChildEvent).

Definition exec (op : Op) : M unit :=
  match op with
  | OpInit => init
  | OpSave v => c <~ new_object v ; saveConfig c
  | OpDelete cid => deleteConfig cid
  | OpStart v => c <~ new_object v ; startFrp c
  | OpStop v => c <~ new_object v ; stopFrp c
  | OpRestart v => c <~ new_object v ; restartFrp c
  | OpTrayToggle c => tray_toggle c
  | OpTrayRestart c => tray_restart c
  | OpCleanup => cleanup
  | OpChild p ev => dispatch p ev
  end.

(** The handler of ['get-architecture']:
    [frpManager?.getArchitecture() || 'x86'], where [frpManager] is [null]
    as long as no manager has been constructed and [getArchitecture()]
    returns [this.architecture]; the empty string is the one string that
    [||] replaces. *)
Definition get_architecture_handler (frpManager : option State) : string :=
  match frpManager with
  | Some s => if bool_decide (architecture s = "") then "x86" else architecture s
  | None => "x86"
  end.

(** The renderer ([App.tsx]) keeps a list of records, which it gets from
    ['get-configs'].  On ['frp-status-changed'] it updates the list by
    [configs.map(c => c.id === updatedConfig.id ? updatedConfig : c)]. *)
Definition on_status_changed (updatedConfig : FrpConfig)
    (configs : list FrpConfig) : list FrpConfig :=
  List.map
    (fun c => if bool_decide (id c = id updatedConfig) then updatedConfig else c)
    configs.

(** The state after a sequence of calls, whatever each returned. *)
Definition run (ops : list Op) (s : State) : State :=
  foldl (fun s op => snd (exec op s)) s ops.

End Model.

Arguments FrpConfig : clear implicits.
Arguments Event : clear implicits.
Arguments FileContent : clear implicits.
Arguments State : clear implicits.
Arguments M : clear implicits.
Arguments Op : clear implicits.

(** ** Sample data used to run the model *)

(** A stand-in for the TOML grammar, enough to tell an accepted document from
    a rejected one: a document is one [key = value] line. *)
Definition sample_parse (body : string) : list (string * string) + string :=
  match String.index 0 " = " body with
  | Some i =>
      inl [(String.substring 0 i body,
            String.substring (i + 3) (String.length body - (i + 3)) body)]
  | None => inr "Unexpected character, expected key/value pair"
  end.

Abbreviation SConfig := (FrpConfig (list (string * string))).

(** The values of a sample document are strings, which [JSON.parse] gives
    back as they were written. *)
#[export] Instance sample_json : JsonLib (list (string * string)) := fun p => p.

(** [path.join] on segments that need no normalisation. *)
#[export] Instance sample_path : PathLib := String.concat "/".

(** A configuration that starts with the application, and one that does
    not. *)
Definition cfgA : SConfig :=
  mkFrpConfig "1" "web" "serverPort = 7000" false true None.
Definition cfgB : SConfig :=
  mkFrpConfig "2" "ssh" "serverPort = 7001" false false None.
Definition cfgBad : SConfig :=
  mkFrpConfig "3" "bad" "serverPort 7000" false false None.

(** A manager on an arm64 host with no file on disk and an environment in
    which every call succeeds. *)
Definition fresh_manager : State (list (string * string)) :=
  Eval vm_compute in
    new_FrpManager "arm64" "/Applications/FrpManager.app" None ∅ [] [] [].

(** The registry after [cfgA] has been saved from the renderer. *)
Definition registry_A : State (list (string * string)) :=
  Eval vm_compute in run sample_parse [OpSave cfgA] fresh_manager.

(** The same after [cfgA] has been started from the tray menu. *)
Definition running_A : State (list (string * string)) :=
  Eval vm_compute in run sample_parse [OpSave cfgA; OpTrayToggle 0] fresh_manager.

(** A disk that is full. *)
Definition disk_full : list (option string) :=
  [Some "ENOSPC: no space left on device"].

(** A rejected write that has emptied its file. *)
Definition emptied : list Torn := [Partial ""].

(** An edited [cfgA], as the dialog sends it: same id, another port. *)
Definition cfgA_edited : SConfig :=
  mkFrpConfig "1" "web" "serverPort = 7100" false true None.

(** [registry_A] with the object of the edited record, received over IPC and
    not yet saved; its reference is [1]. *)
Definition registry_A_edit_received : State (list (string * string)) :=
  Eval vm_compute in snd (new_object cfgA_edited registry_A).

(** A second configuration that starts with the application. *)
Definition cfgC : SConfig :=
  mkFrpConfig "4" "db" "serverPort = 7002" false true None.

(** [cfgA] is saved and started from the tray menu, then [cfgB] is saved. *)
Definition saved_while_running : State (list (string * string)) :=
  Eval vm_compute in
    run sample_parse [OpSave cfgA; OpTrayToggle 0; OpSave cfgB] fresh_manager.

(** A new manager whose [configs.json] holds the given records, before its
    [init], with the given outcomes for the file-system calls. *)
Definition at_boot (records : list SConfig) (fs : list (option string))
    : State (list (string * string)) :=
  new_FrpManager "arm64" "/Applications/FrpManager.app"
    (Some (JsonText records)) ∅ fs [] [].

(** The record of [cfgA] once saved, and once started. *)
Definition cfgA_saved : SConfig :=
  with_parsedConfig [("serverPort", "7000")] cfgA.
Definition cfgA_running : SConfig := with_isRunning true cfgA_saved.

(** [running_A] with the object of the edited record, received over IPC and
    not yet saved; its reference is [1]. *)
Definition running_A_edit_received : State (list (string * string)) :=
  Eval vm_compute in snd (new_object cfgA_edited running_A).

(** ** Predicates used in the statements *)

(** A computation leaves a component of the state alone. *)
Definition preserves {Parsed X A} (f : State Parsed -> X) (m : M Parsed A) : Prop :=
  forall s, f (snd (m s)) = f s.

(** The state after [config.parsedConfig = TOML.parse(config.config)]. *)
Definition after_parse {Parsed} (c : loc) (v : FrpConfig Parsed) (p : Parsed)
    (s : State Parsed) : State Parsed :=
  set_heap (<[c := with_parsedConfig p v]> (heap s)) s.

(** The array after the update-or-append of [saveConfig]. *)
Definition upserted {Parsed} (c : loc) (cid : string) (s : State Parsed) : list loc :=
  match findIndex (has_id s cid) (configs s) with
  | Some i => <[i := c]> (configs s)
  | None => configs s ++ [c]
  end.

(** The array after the [filter] of [deleteConfig]. *)
Definition without {Parsed} (cid : string) (s : State Parsed) : list loc :=
  List.filter (fun c => negb (has_id s cid c)) (configs s).

(** The state after the four statements of the [if (process)] block of
    [stopFrp], for the object [c] holding [v] and the tracked process [p]. *)
Definition stopped {Parsed} (c : loc) (v : FrpConfig Parsed) (p : ChildProcess)
    (s : State Parsed) : State Parsed :=
  set_events (events s ++ [StatusChanged (with_isRunning false v)])
    (set_heap (<[c := with_isRunning false v]> (heap s))
       (set_processes (delete (id v) (processes s))
          (set_signalled ({[p]} ∪ signalled s) s))).

(** The number of entries of [this.configs] whose [id] is [cid]. *)
Definition count_id {Parsed} (s : State Parsed) (cid : string) : nat :=
  length (List.filter (has_id s cid) (configs s)).

(** The state after a [startFrp] on the object [c] holding [v] in which the
    write of the TOML file and the [spawn] both succeed. *)
Definition started {Parsed} (c : loc) (v : FrpConfig Parsed)
    (s : State Parsed) : State Parsed :=
  let p := fresh (dom (spawned s)) in
  set_listeners (<[p := c]> (listeners s))
    (set_events (events s ++ [StatusChanged (with_isRunning true v)])
       (set_heap (<[c := with_isRunning true v]> (heap s))
          (set_processes (<[id v := p]> (processes s))
             (set_spawned (<[p := id v]> (spawned s))
                (set_spawn_script (tail (spawn_script s))
                   (set_toml_files (<[id v := config v]> (toml_files s))
                      (set_fs_script (tail (fs_script s)) s))))))).

(** The state after the ['close'] or ['error'] listener has marked the
    object [c], holding [v], as stopped and sent the status message. *)
Definition exited {Parsed} (c : loc) (v : FrpConfig Parsed)
    (s : State Parsed) : State Parsed :=
  set_events (events s ++ [StatusChanged (with_isRunning false v)])
    (set_heap (<[c := with_isRunning false v]> (heap s))
       (set_processes (delete (id v) (processes s)) s)).

(** The test of the loop of [startAutoStartConfigs]:
    [config.autoStart && !config.isRunning]. *)
Definition eligible {Parsed} (v : FrpConfig Parsed) : bool :=
  autoStart v && negb (isRunning v).

(** A script with no failure in it. *)
Definition no_failures (script : list (option string)) : Prop :=
  Forall (fun o => o = None) script.

(** The process table has an entry for the id, and it is a child that was
    spawned on the TOML file of the id. *)
Definition tracked {Parsed} (s : State Parsed) (cid : string) : Prop :=
  exists p, processes s !! cid = Some p /\ spawned s !! p = Some cid.

(** What is seen, between the states [s] and [s'], of a start of the object
    [c], which held [v] in [s], that went through: the object is marked
    running, the status message was sent, a child that did not exist in [s]
    was spawned on the TOML file of the id, and the id is tracked. *)
Definition start_went_through {Parsed} (s s' : State Parsed) (c : loc)
    (v : FrpConfig Parsed) : Prop :=
  heap s' !! c = Some (with_isRunning true v)
  /\ StatusChanged (with_isRunning true v) ∈ events s'
  /\ (exists p, spawned s' !! p = Some (id v) /\ spawned s !! p = None)
  /\ tracked s' (id v).

(** What is seen of a start attempt: it went through, or it failed, the
    object is as it was and an error message for the id, with the auto-start
    prefix, was sent. *)
Definition attempted {Parsed} (s s' : State Parsed) (c : loc)
    (v : FrpConfig Parsed) : Prop :=
  start_went_through s s' c v
  \/ (heap s' !! c = Some v
      /\ exists msg, FrpError (id v) ("自动启动失败: " +:+ msg) ∈ events s').


(** [configs.json] is absent, is not JSON, or holds an array of
    configuration records. *)
Definition loadable {Parsed} (content : option (FileContent Parsed)) : Prop :=
  forall text, content <> Some (IllShaped text).

(** No record of the list is marked running. *)
Definition none_running {Parsed} (rs : list (FrpConfig Parsed)) : Prop :=
  Forall (fun v => isRunning v = false) rs.

(** The records [configs.json] holds. *)
Definition persisted {Parsed} (s : State Parsed) : list (FrpConfig Parsed) :=
  match configs_json s with
  | Some (JsonText rs) => rs
  | _ => []
  end.

(** A save, from the renderer, of a record not marked running, or a
    delete. *)
Definition store_op {Parsed} (op : Op Parsed) : Prop :=
  match op with
  | OpSave v => isRunning v = false
  | OpDelete _ => True
  | _ => False
  end.

(** A new manager on the files the state [s] has left, as its constructor
    makes it. *)
Definition at_restart {Parsed} `{PathLib} (os_arch assets : string)
    (fs spawns : list (option string)) (s : State Parsed) : State Parsed :=
  new_FrpManager os_arch assets (configs_json s) (toml_files s) fs spawns [].

(** The same after its [initConfigs]. *)
Definition cold_load {Parsed} `{JsonLib Parsed} `{PathLib} (os_arch assets : string)
    (fs spawns : list (option string)) (s : State Parsed) : State Parsed :=
  snd (initConfigs (at_restart os_arch assets fs spawns s)).

(** The records of a list as [JSON.parse] gives them back. *)
Definition as_reloaded {Parsed} `{JsonLib Parsed} (rs : list (FrpConfig Parsed))
    : list (FrpConfig Parsed) :=
  reloaded <$> rs.

(** What the listeners of child processes can have done between [s] and
    [s']: messages were added, ids left the process table, objects were
    marked stopped. *)
Definition drifted {Parsed} (s s' : State Parsed) : Prop :=
  events s `prefix_of` events s'
  /\ (forall cid, processes s !! cid = None -> processes s' !! cid = None)
  /\ (forall c, heap s' !! c = heap s !! c
                \/ exists v, heap s !! c = Some v
                             /\ heap s' !! c = Some (with_isRunning false v)).

(** The status messages a run of [restartFrp] sends, for the object holding
    [v]: stopped, what the events arriving during the write add, running. *)
Definition restart_messages {Parsed} (v : FrpConfig Parsed)
    (more : list (Event Parsed)) : list (Event Parsed) :=
  StatusChanged (with_isRunning false v) :: more
    ++ [StatusChanged (with_isRunning true v)].

(** The calls that write [configs.json]. *)
Definition writes_registry {Parsed} (op : Op Parsed) : bool :=
  match op with
  | OpSave _ | OpDelete _ => true
  | _ => false
  end.

(** No two entries of [this.configs] have the same [id]. *)
Definition unique_ids {Parsed} (s : State Parsed) : Prop :=
  forall cid, count_id s cid <= 1.

(** * Properties *)

Section Properties.

Context {Parsed : Type} {jsonlib : JsonLib Parsed} {pathlib : PathLib}.
Variable TOML_parse : string -> Parsed + string.

Local Abbreviation Config := (FrpConfig Parsed).
Local Abbreviation St := (State Parsed).
Local Abbreviation save := (saveConfig TOML_parse).
Local Abbreviation call := (exec TOML_parse).
Local Abbreviation calls := (run TOML_parse).

(** ** Computations that leave a component of the state alone *)

Lemma preserves_ret {X A} (f : St -> X) (a : A) : preserves f (ret a).
Proof. intros s. reflexivity. Qed.

Lemma preserves_throw {X A} (f : St -> X) e : preserves f (@throw St A e).
Proof. intros s. reflexivity. Qed.

Lemma preserves_gets {X A} (f : St -> X) (g : St -> A) : preserves f (gets g).
Proof. intros s. reflexivity. Qed.

Lemma preserves_bind {X A B} (f : St -> X) (m : M Parsed A) (k : A -> M Parsed B) :
  preserves f m -> (forall a, preserves f (k a)) -> preserves f (bind m k).
Proof.
  intros Hm Hk s. unfold bind. specialize (Hm s).
  destruct (m s) as [[a|e|w] s']; simpl in *.
  - rewrite Hk. exact Hm.
  - exact Hm.
  - exact Hm.
Qed.

Lemma preserves_try_catch {X A} (f : St -> X) (m : M Parsed A) h :
  preserves f m -> (forall e, preserves f (h e)) -> preserves f (try_catch m h).
Proof.
  intros Hm Hh s. unfold try_catch. specialize (Hm s).
  destruct (m s) as [[a|e|w] s']; simpl in *.
  - exact Hm.
  - rewrite Hh. exact Hm.
  - exact Hm.
Qed.

Lemma preserves_outside {X A} (f : St -> X) w : preserves f (@outside St A w).
Proof. intros s. reflexivity. Qed.

Lemma preserves_modify {X} (f : St -> X) (g : St -> St) :
  (forall s, f (g s) = f s) -> preserves f (modify g).
Proof. intros H s. apply H. Qed.

Lemma preserves_deref {X} (f : St -> X) c : preserves f (deref c).
Proof. intros s. unfold deref. destruct (heap s !! c); reflexivity. Qed.

Lemma preserves_for_of {X A} (f : St -> X) (l : list A) body :
  (forall x, preserves f (body x)) -> preserves f (for_of l body).
Proof.
  intros Hb. induction l as [|x l IH]; simpl.
  - apply preserves_ret.
  - apply preserves_bind; auto.
Qed.

(** Every method keeps [this.architecture]. *)
Ltac arch_step :=
  first
    [ apply preserves_ret | apply preserves_throw | apply preserves_gets
    | apply preserves_outside | apply preserves_deref
    | apply preserves_modify; intros; reflexivity
    | apply preserves_bind; [| intros]
    | apply preserves_try_catch; [| intros]
    | apply preserves_for_of; intros
    | match goal with |- preserves _ (match ?x with _ => _ end) => destruct x end
    | match goal with |- preserves _ (if ?x then _ else _) => destruct x end ].

Lemma fs_call_architecture : preserves architecture (@fs_call Parsed).
Proof.
  intros s. unfold fs_call. destruct (next_failure (fs_script s)); reflexivity.
Qed.

Lemma after_failed_write_keeps {X} (f : St -> X) put (s : St) :
  (forall x s, f (set_torn_script x s) = f s) ->
  (forall o s, f (put o s) = f s) ->
  f (after_failed_write put s) = f s.
Proof.
  intros H1 H2. unfold after_failed_write.
  destruct (torn_script s) as [|[| text |] rest]; rewrite ?H2, ?H1; reflexivity.
Qed.

Lemma preserves_writeFile {X} (f : St -> X) put :
  (forall x s, f (set_fs_script x s) = f s) ->
  (forall x s, f (set_torn_script x s) = f s) ->
  (forall o s, f (put o s) = f s) ->
  preserves f (@writeFile Parsed put).
Proof.
  intros H1 H2 H3 s. unfold writeFile.
  destruct (next_failure (fs_script s)); cbn [snd].
  - rewrite after_failed_write_keeps by assumption. apply H1.
  - rewrite H3. apply H1.
Qed.

Lemma writeFile_architecture put :
  (forall o s, architecture (put o s) = architecture s) ->
  preserves architecture (@writeFile Parsed put).
Proof. intros H. apply preserves_writeFile; auto. Qed.

Lemma spawn_architecture arg : preserves architecture (@spawn Parsed arg).
Proof.
  intros s. unfold spawn. destruct (next_failure (spawn_script s)); reflexivity.
Qed.

Lemma new_object_architecture v : preserves architecture (@new_object Parsed v).
Proof. intros s. reflexivity. Qed.

Lemma new_objects_architecture vs : preserves architecture (@new_objects Parsed vs).
Proof.
  induction vs as [|v vs IH]; simpl.
  - apply preserves_ret.
  - apply preserves_bind; [apply new_object_architecture | intros].
    apply preserves_bind; [exact IH | intros]. apply preserves_ret.
Qed.

Lemma startFrp_architecture c : preserves architecture (@startFrp Parsed c).
Proof.
  unfold startFrp, startFrp_during, deliver, store, notifyStatusChange.
  repeat first
    [ apply fs_call_architecture | apply spawn_architecture
    | apply writeFile_architecture; intros; reflexivity | arch_step ].
Qed.

Lemma stopFrp_architecture c : preserves architecture (@stopFrp Parsed c).
Proof. unfold stopFrp, store, notifyStatusChange. repeat arch_step. Qed.

Lemma exec_architecture op : preserves architecture (call op).
Proof.
  destruct op; simpl;
    unfold init, initBinary, initConfigs, startAutoStartConfigs, autoStartConfig,
      saveConfig, deleteConfig, deleteConfig_during, tray_toggle, tray_restart,
      restartFrp, restartFrp_during, write_configs, write_configs_during,
      deliver, getConfig,
      cleanup, dispatch, on_stdout, on_stderr, on_close, on_error,
      store, notifyStatusChange, notifyError;
    repeat first
      [ apply fs_call_architecture | apply new_object_architecture
      | apply new_objects_architecture | apply startFrp_architecture
      | apply (startFrp_architecture _ : preserves architecture (startFrp_during [] _))
      | apply stopFrp_architecture
      | apply writeFile_architecture; intros; reflexivity | arch_step ].
Qed.

Lemma run_architecture ops s : architecture (calls ops s) = architecture s.
Proof.
  revert s. induction ops as [|op ops IH]; intros s; simpl.
  - reflexivity.
  - unfold run in *. simpl. rewrite IH. apply exec_architecture.
Qed.

(** C10. [getArchitecture()] is a query: in every state the manager can
    reach from its constructor, on a host whose [os.arch()] is [os_arch], it
    returns ['arm64'] when [os_arch] is ['arm64'] and ['x64'] otherwise, and
    it returns the state it was called in, unchanged (registry and process
    table included). *)
Theorem getArchitecture_two_valued
    (os_arch assets : string) json tomls fs spawns torn (ops : list (Op Parsed)) :
  let s := calls ops (new_FrpManager os_arch assets json tomls fs spawns torn) in
  getArchitecture s
    = (Normal (if bool_decide (os_arch = "arm64") then "arm64" else "x64"), s)
  /\ (fst (getArchitecture s) = Normal "arm64"
      \/ fst (getArchitecture s) = Normal "x64").
Proof.
  intros s. unfold getArchitecture, gets. subst s.
  rewrite run_architecture. simpl. unfold detectArchitecture. split.
  - reflexivity.
  - case_bool_decide; [left | right]; reflexivity.
Qed.

(** On a 32-bit x86 host ([os.arch()] is ['ia32']) the answer is ['x64']. *)
Example getArchitecture_ia32 :
  fst (getArchitecture
         (new_FrpManager (Parsed := Parsed) "ia32" "/app" None ∅ [] [] []))
  = Normal "x64".
Proof. reflexivity. Qed.

(** ** Primitive steps *)

Lemma bind_Normal {A B} (m : M Parsed A) (k : A -> M Parsed B) (s s' : St) a :
  m s = (Normal a, s') -> bind m k s = k a s'.
Proof. intros H. unfold bind. rewrite H. reflexivity. Qed.

Lemma bind_Throw {A B} (m : M Parsed A) (k : A -> M Parsed B) (s s' : St) e :
  m s = (Throw e, s') -> bind m k s = (Throw e, s').
Proof. intros H. unfold bind. rewrite H. reflexivity. Qed.

Lemma deref_Some (s : St) c v :
  heap s !! c = Some v -> deref c s = (Normal v, s).
Proof. intros H. unfold deref. rewrite H. reflexivity. Qed.

Lemma fs_call_succeeds (s : St) :
  next_failure (fs_script s) = None ->
  fs_call s = (Normal tt, set_fs_script (tail (fs_script s)) s).
Proof. intros H. unfold fs_call. rewrite H. reflexivity. Qed.

Lemma fs_call_fails (s : St) msg :
  next_failure (fs_script s) = Some msg ->
  fs_call s = (Throw (mkError msg), set_fs_script (tail (fs_script s)) s).
Proof. intros H. unfold fs_call. rewrite H. reflexivity. Qed.

Lemma writeFile_succeeds (s : St) put :
  next_failure (fs_script s) = None ->
  writeFile put s = (Normal tt, put None (set_fs_script (tail (fs_script s)) s)).
Proof. intros H. unfold writeFile. rewrite H. reflexivity. Qed.

Lemma writeFile_fails (s : St) put msg :
  next_failure (fs_script s) = Some msg ->
  writeFile put s
  = (Throw (mkError msg),
     after_failed_write put (set_fs_script (tail (fs_script s)) s)).
Proof. intros H. unfold writeFile. rewrite H. reflexivity. Qed.

Lemma deliver_nil (s : St) : deliver [] s = (Normal tt, s).
Proof. reflexivity. Qed.

Lemma spawn_succeeds (s : St) arg :
  next_failure (spawn_script s) = None ->
  spawn arg s =
    (Normal (fresh (dom (spawned s))),
     set_spawned (<[fresh (dom (spawned s)) := arg]> (spawned s))
       (set_spawn_script (tail (spawn_script s)) s)).
Proof. intros H. unfold spawn. rewrite H. reflexivity. Qed.

Lemma spawn_throws (s : St) arg msg :
  next_failure (spawn_script s) = Some msg ->
  spawn arg s = (Throw (mkError msg), set_spawn_script (tail (spawn_script s)) s).
Proof. intros H. unfold spawn. rewrite H. reflexivity. Qed.

Lemma notifyStatusChange_sends (s : St) c v :
  heap s !! c = Some v ->
  notifyStatusChange c s
  = (Normal tt, set_events (events s ++ [StatusChanged v]) s).
Proof.
  intros H. unfold notifyStatusChange.
  rewrite (bind_Normal _ _ _ _ _ (deref_Some _ _ _ H)). reflexivity.
Qed.

(** Projections of updated states, reduced. *)
Ltac tidy :=
  cbn [processes architecture binPath configs heap configs_json toml_files
       events spawned listeners signalled fs_script spawn_script torn_script
       list_history
       set_processes set_configs set_heap set_configs_json set_toml_files
       set_events set_spawned set_listeners set_signalled set_fs_script
       set_spawn_script set_torn_script put_configs put_toml default].

(** One statement of a method body that returns normally. *)
Ltac run_step :=
  erewrite bind_Normal
    by first
         [ apply deref_Some; eassumption
         | apply deliver_nil
         | apply fs_call_succeeds; assumption
         | apply writeFile_succeeds; assumption
         | apply spawn_succeeds; assumption
         | apply notifyStatusChange_sends; apply lookup_insert_eq
         | reflexivity ];
  tidy.

Lemma fresh_loc_None (s : St) : heap s !! fresh (dom (heap s)) = None.
Proof. apply not_elem_of_dom. apply is_fresh. Qed.

Lemma has_id_insert (s : St) c v v' cid c' :
  heap s !! c = Some v -> id v' = id v ->
  has_id (set_heap (<[c := v']> (heap s)) s) cid c' = has_id s cid c'.
Proof.
  intros Hc Hid. unfold has_id. simpl.
  destruct (decide (c = c')) as [->|Hne].
  - rewrite lookup_insert_eq, Hc, Hid. reflexivity.
  - rewrite lookup_insert_ne by exact Hne. reflexivity.
Qed.

(** ** Rejected and failed saves *)

Lemma write_configs_succeeds (s : St) :
  next_failure (fs_script s) = None ->
  write_configs s
  = (Normal tt,
     set_configs_json (Some (JsonText (snapshot s)))
       (set_fs_script (tail (fs_script s)) s)).
Proof.
  intros H. unfold write_configs, write_configs_during. do 2 run_step.
  rewrite writeFile_succeeds by exact H. reflexivity.
Qed.

Lemma write_configs_fails (s : St) msg :
  next_failure (fs_script s) = Some msg ->
  write_configs s
  = (Throw (mkError msg),
     after_failed_write (put_configs (snapshot s))
       (set_fs_script (tail (fs_script s)) s)).
Proof.
  intros H. unfold write_configs, write_configs_during. do 2 run_step.
  apply writeFile_fails. exact H.
Qed.

(** [write_configs] keeps every component of the state other than the two
    scripts it consumes and [configs.json]. *)
Lemma preserves_write_configs {X} (f : St -> X) :
  (forall x s, f (set_fs_script x s) = f s) ->
  (forall x s, f (set_torn_script x s) = f s) ->
  (forall x s, f (set_configs_json x s) = f s) ->
  preserves f (@write_configs Parsed).
Proof.
  intros H1 H2 H3. unfold write_configs, write_configs_during, deliver.
  apply preserves_bind; [apply preserves_gets | intros data].
  apply preserves_bind; [apply preserves_modify; reflexivity | intros _].
  apply preserves_writeFile; [exact H1 | exact H2 |].
  intros o s. apply H3.
Qed.

(** What [saveConfig] does once the document has parsed: the object gets its
    [parsedConfig], the array is updated, and then the write succeeds or
    fails. *)
Lemma saveConfig_parsed (s : St) c v p :
  heap s !! c = Some v -> TOML_parse (config v) = inl p ->
  let s1 := after_parse c v p s in
  let s2 := set_fs_script (tail (fs_script s)) (set_configs (upserted c (id v) s1) s1) in
  save c s =
    match next_failure (fs_script s) with
    | Some msg =>
        (Throw (InvalidConfig msg), after_failed_write (put_configs (snapshot s2)) s2)
    | None => (Normal tt, set_configs_json (Some (JsonText (snapshot s2))) s2)
    end.
Proof.
  intros Hc Hp. unfold saveConfig, try_catch, bind.
  rewrite (deref_Some _ _ _ Hc), Hp. simpl.
  unfold upserted, after_parse. simpl.
  destruct (next_failure (fs_script s)) as [msg|] eqn:Hfs;
    destruct (findIndex _ _) as [i|]; simpl.
  - erewrite write_configs_fails by exact Hfs. reflexivity.
  - erewrite write_configs_fails by exact Hfs. reflexivity.
  - erewrite write_configs_succeeds by exact Hfs. reflexivity.
  - erewrite write_configs_succeeds by exact Hfs. reflexivity.
Qed.

(** C3. When the body of a configuration does not parse, [saveConfig] throws
    the invalid-configuration error carrying the message of the parse error
    and the state is the one before the call: the array of configurations,
    the objects and [configs.json] are untouched.  The same holds for a save
    that arrives over IPC, where the only change is the argument object
    itself, which the registry does not refer to. *)
Theorem saveConfig_rejects_malformed (s : St) (v : Config) (msg : string) :
  TOML_parse (config v) = inr msg ->
  (forall c, heap s !! c = Some v -> save c s = (Throw (InvalidConfig msg), s))
  /\ fst (call (OpSave v) s) = Throw (InvalidConfig msg)
  /\ configs (snd (call (OpSave v) s)) = configs s
  /\ configs_json (snd (call (OpSave v) s)) = configs_json s
  /\ (forall c' v', heap s !! c' = Some v' ->
        heap (snd (call (OpSave v) s)) !! c' = Some v').
Proof.
  intros Hp.
  assert (Hm : forall (s0 : St) c, heap s0 !! c = Some v ->
                 save c s0 = (Throw (InvalidConfig msg), s0)).
  { intros s0 c Hc. unfold saveConfig, try_catch, bind.
    rewrite (deref_Some _ _ _ Hc), Hp. reflexivity. }
  split; [apply Hm |].
  simpl. unfold bind, new_object.
  rewrite Hm by (simpl; apply lookup_insert_eq). simpl.
  repeat split.
  intros c' v' Hc'. rewrite lookup_insert_ne; [exact Hc' |].
  intros <-. rewrite fresh_loc_None in Hc'. discriminate.
Qed.

(** ** The listeners *)

Lemma on_close_spec (s : St) c v code :
  heap s !! c = Some v ->
  on_close c code s =
    (Normal tt,
     match code with
     | Some n =>
         if bool_decide (n <> 0%Z)
         then set_events
                (events (exited c v s)
                   ++ [FrpError (name v) ("进程退出，退出码: " +:+ show_code n)])
                (exited c v s)
         else exited c v s
     | None => exited c v s
     end).
Proof.
  intros Hc. unfold on_close. do 4 run_step. unfold exited.
  destruct code as [n|]; [| reflexivity].
  destruct (bool_decide (n <> 0%Z)); unfold notifyError, modify, ret; tidy;
    reflexivity.
Qed.

Lemma on_error_spec (s : St) c v msg :
  heap s !! c = Some v ->
  on_error c msg s =
    (Normal tt,
     set_events (events (exited c v s) ++ [FrpError (id v) msg]) (exited c v s)).
Proof.
  intros Hc. unfold on_error. do 4 run_step.
  unfold notifyError, modify, exited. tidy. reflexivity.
Qed.

Lemma dispatch_listener (s : St) p c ev :
  listeners s !! p = Some c ->
  dispatch p ev s =
    match ev with
    | StdoutData data => on_stdout c data s
    | StderrData data => on_stderr c data s
    | Close code => on_close c code s
    | ProcessError msg => on_error c msg s
    end.
Proof.
  intros Hl. unfold dispatch, bind, gets. rewrite Hl. destruct ev; reflexivity.
Qed.

(** What the ['close'] listener does on a non-zero exit code: the entry of
    the id leaves the process table, the object is marked stopped, the status
    message is sent and then the error message, whose [configId] is the
    [name] of the configuration. *)
Lemma close_nonzero (s : St) p c v (n : Z) :
  listeners s !! p = Some c -> heap s !! c = Some v -> n <> 0%Z ->
  let s' := snd (dispatch p (Close (Some n)) s) in
  fst (dispatch p (Close (Some n)) s) = Normal tt
  /\ processes s' !! id v = None
  /\ heap s' !! c = Some (with_isRunning false v)
  /\ events s' =
       (events s ++ [StatusChanged (with_isRunning false v);
                     FrpError (name v) ("进程退出，退出码: " +:+ show_code n)]).
Proof.
  intros Hl Hc Hn s'. unfold s'. rewrite (dispatch_listener _ _ _ _ Hl).
  rewrite (on_close_spec _ _ _ _ Hc).
  rewrite bool_decide_eq_true_2 by exact Hn. simpl.
  split; [reflexivity |]. split; [apply lookup_delete_eq |].
  split; [apply lookup_insert_eq |].
  rewrite <- app_assoc. reflexivity.
Qed.

(** ** Events that arrive while a method awaits *)

Lemma set_events_same (s : St) : set_events (events s) s = s.
Proof. destruct s. reflexivity. Qed.

Lemma drifted_refl (s : St) : drifted s s.
Proof. split; [reflexivity |]. split; auto. Qed.

Lemma drifted_trans (s1 s2 s3 : St) :
  drifted s1 s2 -> drifted s2 s3 -> drifted s1 s3.
Proof.
  intros (E1 & P1 & H1) (E2 & P2 & H2).
  split; [etrans; eassumption |]. split; [auto |].
  intros c. destruct (H2 c) as [H | (v2 & Hv2 & H)].
  - rewrite H. apply H1.
  - destruct (H1 c) as [H' | (v1 & Hv1 & H')].
    + right. exists v2. rewrite <- H'. auto.
    + right. exists v1. split; [exact Hv1 |].
      rewrite H' in Hv2. injection Hv2 as <-. exact H.
Qed.

Lemma drifted_exited (s : St) c v more :
  heap s !! c = Some v ->
  drifted s (set_events (events (exited c v s) ++ more) (exited c v s)).
Proof.
  intros Hc. unfold drifted, exited. tidy. split; [| split].
  - rewrite <- app_assoc. apply prefix_app_r. reflexivity.
  - intros cid Hn. destruct (decide (id v = cid)) as [<- | Hne].
    + apply lookup_delete_eq.
    + rewrite lookup_delete_ne by exact Hne. exact Hn.
  - intros c'. destruct (decide (c = c')) as [<- | Hne].
    + right. exists v. split; [exact Hc | apply lookup_insert_eq].
    + left. apply lookup_insert_ne. exact Hne.
Qed.

Lemma drifted_set_events (s : St) more : drifted s (set_events (events s ++ more) s).
Proof.
  split; [apply prefix_app_r; reflexivity |]. split; auto.
Qed.

(** One event of a child, whatever it is and whoever listens. *)
Lemma dispatch_drifted (s : St) p ev : drifted s (snd (dispatch p ev s)).
Proof.
  unfold dispatch, bind at 1, gets.
  destruct (listeners s !! p) as [c|]; [| apply drifted_refl].
  destruct (heap s !! c) as [v|] eqn:Hc.
  2:{ destruct ev; unfold on_stdout, on_stderr, on_close, on_error, bind, deref;
        rewrite Hc; apply drifted_refl. }
  destruct ev as [data | data | code | msg].
  - unfold on_stdout. rewrite (bind_Normal _ _ _ _ _ (deref_Some _ _ _ Hc)).
    apply drifted_refl.
  - unfold on_stderr. rewrite (bind_Normal _ _ _ _ _ (deref_Some _ _ _ Hc)).
    apply drifted_set_events.
  - rewrite (on_close_spec _ _ _ _ Hc). cbn [snd].
    assert (H0 : drifted s (exited c v s)).
    { rewrite <- (set_events_same (exited c v s)).
      rewrite <- (app_nil_r (events (exited c v s))).
      apply drifted_exited. exact Hc. }
    destruct code as [n|]; [| exact H0].
    destruct (bool_decide (n <> 0%Z)); [| exact H0].
    apply drifted_exited. exact Hc.
  - rewrite (on_error_spec _ _ _ _ Hc). apply drifted_exited. exact Hc.
Qed.

Lemma deliver_snoc arrivals a (s : St) :
  snd (deliver (arrivals ++ [a]) s)
  = snd (dispatch a.1 a.2 (snd (deliver arrivals s))).
Proof. unfold deliver, modify. cbn [snd]. rewrite foldl_app. reflexivity. Qed.

Lemma deliver_drifted arrivals (s : St) : drifted s (snd (deliver arrivals s)).
Proof.
  induction arrivals as [|a arrivals IH] using rev_ind.
  - apply drifted_refl.
  - rewrite deliver_snoc. eapply drifted_trans; [exact IH |].
    apply dispatch_drifted.
Qed.

Lemma deliver_returns arrivals (s : St) :
  deliver arrivals s = (Normal tt, snd (deliver arrivals s)).
Proof. reflexivity. Qed.

(** The listeners write the process table, the objects and the messages,
    and nothing else. *)
Lemma preserves_dispatch {X} (f : St -> X) p ev :
  (forall x s, f (set_processes x s) = f s) ->
  (forall x s, f (set_heap x s) = f s) ->
  (forall x s, f (set_events x s) = f s) ->
  preserves f (@dispatch Parsed p ev).
Proof.
  intros H1 H2 H3.
  unfold dispatch, on_stdout, on_stderr, on_close, on_error, store,
    notifyStatusChange, notifyError.
  repeat first
    [ apply preserves_modify; intros; first [apply H1 | apply H2 | apply H3]
    | arch_step ].
Qed.

Lemma preserves_deliver {X} (f : St -> X) arrivals :
  (forall x s, f (set_processes x s) = f s) ->
  (forall x s, f (set_heap x s) = f s) ->
  (forall x s, f (set_events x s) = f s) ->
  preserves f (@deliver Parsed arrivals).
Proof.
  intros H1 H2 H3 s. induction arrivals as [|a arrivals IH] using rev_ind.
  - reflexivity.
  - rewrite deliver_snoc, <- IH. apply preserves_dispatch; assumption.
Qed.


(** ** Stopping and deleting *)

Lemma stopFrp_tracked (s : St) c v p :
  heap s !! c = Some v -> processes s !! id v = Some p ->
  stopFrp c s = (Normal tt, stopped c v p s).
Proof.
  intros Hc Hp. unfold stopFrp. run_step.
  rewrite (bind_Normal _ _ s s (Some p)) by (unfold gets; rewrite Hp; reflexivity).
  do 3 run_step.
  rewrite notifyStatusChange_sends with (v := with_isRunning false v)
    by apply lookup_insert_eq.
  unfold stopped. tidy. reflexivity.
Qed.

Lemma stopFrp_untracked (s : St) c v :
  heap s !! c = Some v -> processes s !! id v = None ->
  stopFrp c s = (Normal tt, s).
Proof.
  intros Hc Hp. unfold stopFrp. run_step.
  rewrite (bind_Normal _ _ s s None) by (unfold gets; rewrite Hp; reflexivity).
  reflexivity.
Qed.

Lemma preserves_stopFrp_file c : preserves configs_json (@stopFrp Parsed c).
Proof. unfold stopFrp, store, notifyStatusChange. repeat arch_step. Qed.

Lemma getConfig_found (s : St) cid c :
  getConfig cid s = (Normal (Some c), s) ->
  c ∈ configs s /\ exists v, heap s !! c = Some v /\ id v = cid.
Proof.
  unfold getConfig, gets. intros H.
  assert (Hf : List.find (has_id s cid) (configs s) = Some c) by congruence.
  apply List.find_some in Hf as [Hin Hid]. split.
  - apply list_elem_of_In. exact Hin.
  - unfold has_id in Hid. destruct (heap s !! c) as [v|]; [|discriminate].
    exists v. split; [reflexivity |]. apply bool_decide_eq_true in Hid. exact Hid.
Qed.


Lemma without_has_id (s s' : St) cid :
  configs s' = configs s -> (forall c, has_id s' cid c = has_id s cid c) ->
  without cid s' = without cid s.
Proof.
  intros Hc Hh. unfold without. rewrite Hc.
  apply List.filter_ext. intros c. rewrite Hh. reflexivity.
Qed.

Lemma without_stopped (s : St) c v p cid :
  heap s !! c = Some v -> without cid (stopped c v p s) = without cid s.
Proof.
  intros Hc. apply without_has_id; [reflexivity |].
  intros c'. unfold stopped, has_id. simpl.
  destruct (decide (c = c')) as [->|Hne].
  - rewrite lookup_insert_eq, Hc. reflexivity.
  - rewrite lookup_insert_ne by exact Hne. reflexivity.
Qed.

Lemma not_in_without (s : St) cid c :
  has_id s cid c = true -> c ∉ without cid s.
Proof.
  intros Hid Hin. unfold without in Hin.
  apply list_elem_of_In, List.filter_In in Hin as [_ Hn].
  rewrite Hid in Hn. discriminate.
Qed.

(** [deleteConfig] on an id that [getConfig] finds: stop, filter, write. *)
Lemma deleteConfig_found (s : St) cid c :
  getConfig cid s = (Normal (Some c), s) ->
  deleteConfig cid s =
    (modify (fun s1 => set_configs (without cid s1) s1) ;;; write_configs)
      (snd (stopFrp c s))
  /\ fst (stopFrp c s) = Normal tt.
Proof.
  intros Hg. destruct (getConfig_found _ _ _ Hg) as [_ (v & Hc & _)].
  unfold deleteConfig, deleteConfig_during. unfold bind at 1. rewrite Hg.
  unfold bind at 1.
  destruct (processes s !! id v) as [p|] eqn:Hp.
  - rewrite (stopFrp_tracked _ _ _ _ Hc Hp). split; reflexivity.
  - rewrite (stopFrp_untracked _ _ _ Hc Hp). split; reflexivity.
Qed.


Lemma write_configs_configs (s : St) : configs (snd (write_configs s)) = configs s.
Proof. apply (preserves_write_configs configs); reflexivity. Qed.

Lemma write_configs_heap (s : St) : heap (snd (write_configs s)) = heap s.
Proof. apply (preserves_write_configs heap); reflexivity. Qed.

(** ** The array operations of [saveConfig] *)

Lemma findIndex_Some {A} (p : A -> bool) l i :
  findIndex p l = Some i ->
  exists x, l !! i = Some x /\ p x = true
            /\ List.find p (take i l) = None.
Proof.
  revert i. induction l as [|y l IH]; intros i; simpl; [discriminate |].
  destruct (p y) eqn:Hy.
  - intros [= <-]. exists y. simpl. auto.
  - destruct (findIndex p l) as [j|]; simpl; [|discriminate].
    intros [= <-]. destruct (IH j eq_refl) as (x & Hx & Hp & Hf).
    exists x. simpl. rewrite Hy. auto.
Qed.

Lemma findIndex_None {A} (p : A -> bool) l :
  findIndex p l = None -> List.filter p l = [].
Proof.
  induction l as [|y l IH]; simpl; [reflexivity |].
  destruct (p y); [discriminate |].
  destruct (findIndex p l); [discriminate |]. auto.
Qed.

Lemma find_filter_nil {A} (p : A -> bool) l :
  List.filter p l = [] -> List.find p l = None.
Proof.
  induction l as [|y l IH]; simpl; [reflexivity |].
  destruct (p y); [discriminate | exact IH].
Qed.

Lemma find_app_None {A} (p : A -> bool) l l' :
  List.find p l = None -> List.find p (l ++ l') = List.find p l'.
Proof.
  induction l as [|y l IH]; simpl; [reflexivity |].
  destruct (p y); [discriminate | exact IH].
Qed.

Lemma insert_take_drop_at {A} (l : list A) i x y :
  l !! i = Some y -> <[i := x]> l = take i l ++ x :: drop (S i) l.
Proof.
  intros H. apply insert_take_drop. eapply lookup_lt_Some. exact H.
Qed.

(** After the update-or-append, driven by a test the new element passes, the
    new element is the first to pass the test. *)
Lemma find_upsert {A} (p : A -> bool) l c :
  p c = true ->
  List.find p (match findIndex p l with
               | Some i => <[i := c]> l
               | None => l ++ [c]
               end) = Some c.
Proof.
  intros Hc. destruct (findIndex p l) as [i|] eqn:Hi.
  - destruct (findIndex_Some _ _ _ Hi) as (y & Hy & _ & Hf).
    rewrite (insert_take_drop_at _ _ _ _ Hy), (find_app_None _ _ _ Hf).
    simpl. rewrite Hc. reflexivity.
  - rewrite find_app_None by (apply find_filter_nil, findIndex_None, Hi).
    simpl. rewrite Hc. reflexivity.
Qed.

(** The number of elements passing the test: unchanged by an update, one
    after an append. *)
Lemma filter_upsert_length {A} (p : A -> bool) l c :
  p c = true ->
  length (List.filter p (match findIndex p l with
                         | Some i => <[i := c]> l
                         | None => l ++ [c]
                         end))
  = Nat.max 1 (length (List.filter p l)).
Proof.
  intros Hc. destruct (findIndex p l) as [i|] eqn:Hi.
  - destruct (findIndex_Some _ _ _ Hi) as (y & Hy & Hpy & _).
    rewrite (insert_take_drop_at _ _ _ _ Hy).
    rewrite <- (take_drop_middle l i y Hy) at 3.
    rewrite !List.filter_app. simpl. rewrite Hc, Hpy.
    rewrite !length_app. simpl. lia.
  - rewrite List.filter_app, (findIndex_None _ _ Hi). simpl. rewrite Hc.
    reflexivity.
Qed.

Lemma upsert_length {A} (p : A -> bool) (l : list A) c :
  length (match findIndex p l with
          | Some i => <[i := c]> l
          | None => l ++ [c]
          end)
  = match findIndex p l with
    | Some _ => length l
    | None => S (length l)
    end.
Proof.
  destruct (findIndex p l).
  - apply length_insert.
  - rewrite length_app. simpl. lia.
Qed.

Lemma elem_of_upsert {A} (p : A -> bool) (l : list A) c :
  c ∈ match findIndex p l with
      | Some i => <[i := c]> l
      | None => l ++ [c]
      end.
Proof.
  destruct (findIndex p l) as [i|] eqn:Hi.
  - destruct (findIndex_Some _ _ _ Hi) as (y & Hy & _).
    rewrite (insert_take_drop_at _ _ _ _ Hy). set_solver.
  - set_solver.
Qed.

Lemma findIndex_Some_filter {A} (p : A -> bool) l i :
  findIndex p l = Some i -> 1 <= length (List.filter p l).
Proof.
  intros Hi. destruct (findIndex_Some _ _ _ Hi) as (y & Hy & Hpy & _).
  rewrite <- (take_drop_middle l i y Hy), List.filter_app. simpl.
  rewrite Hpy, length_app. simpl. lia.
Qed.

Lemma find_ext {A} (p q : A -> bool) l :
  (forall x, p x = q x) -> List.find p l = List.find q l.
Proof.
  intros H. induction l as [|y l IH]; simpl; [reflexivity |].
  rewrite H, IH. reflexivity.
Qed.

Lemma has_id_heap (s s' : St) cid c :
  heap s' = heap s -> has_id s' cid c = has_id s cid c.
Proof. intros H. unfold has_id. rewrite H. reflexivity. Qed.

Lemma count_id_ext (s s' : St) cid :
  configs s' = configs s -> (forall c, has_id s' cid c = has_id s cid c) ->
  count_id s' cid = count_id s cid.
Proof.
  intros Hc Hh. unfold count_id. rewrite Hc. f_equal.
  apply List.filter_ext. exact Hh.
Qed.

(** ** Saving *)

(** The in-memory effect of a [saveConfig] whose document parses, whatever
    the write does afterwards. *)
Lemma saveConfig_memory (s : St) c v p :
  heap s !! c = Some v -> TOML_parse (config v) = inl p ->
  configs (snd (save c s)) = upserted c (id v) (after_parse c v p s)
  /\ heap (snd (save c s)) = <[c := with_parsedConfig p v]> (heap s).
Proof.
  intros Hc Hp. rewrite (saveConfig_parsed _ _ _ _ Hc Hp).
  destruct (next_failure (fs_script s)); cbn [snd].
  - split; rewrite after_failed_write_keeps by reflexivity; reflexivity.
  - split; reflexivity.
Qed.

Lemma save_once (s : St) c v p :
  heap s !! c = Some v -> TOML_parse (config v) = inl p ->
  let s' := snd (save c s) in
  getConfig (id v) s' = (Normal (Some c), s')
  /\ heap s' !! c = Some (with_parsedConfig p v)
  /\ count_id s' (id v) = Nat.max 1 (count_id s (id v))
  /\ length (configs s')
     = if decide (count_id s (id v) = 0) then S (length (configs s))
       else length (configs s).
Proof.
  intros Hc Hp s'.
  destruct (saveConfig_memory _ _ _ _ Hc Hp) as [Hcs Hh]. fold s' in Hcs, Hh.
  set (s1 := after_parse c v p s) in *.
  assert (H1 : forall c', has_id s1 (id v) c' = has_id s (id v) c').
  { intros c'. apply (has_id_insert s c v); [exact Hc | reflexivity]. }
  assert (H' : forall c', has_id s' (id v) c' = has_id s1 (id v) c').
  { intros c'. apply has_id_heap. rewrite Hh. reflexivity. }
  assert (Hpc : has_id s1 (id v) c = true).
  { unfold has_id, s1, after_parse. simpl. rewrite lookup_insert_eq. simpl.
    apply bool_decide_eq_true. reflexivity. }
  assert (Hcnt : count_id s1 (id v) = count_id s (id v)).
  { apply count_id_ext; [reflexivity | exact H1]. }
  repeat split.
  - unfold getConfig, gets. f_equal. f_equal. rewrite Hcs.
    rewrite (find_ext _ _ _ H'). unfold upserted.
    apply find_upsert. exact Hpc.
  - rewrite Hh. apply lookup_insert_eq.
  - unfold count_id at 1. rewrite Hcs, (List.filter_ext _ _ H').
    unfold upserted. rewrite filter_upsert_length by exact Hpc.
    fold (count_id s1 (id v)). rewrite Hcnt. reflexivity.
  - rewrite Hcs. unfold upserted. rewrite upsert_length.
    rewrite <- Hcnt. unfold count_id.
    destruct (findIndex _ _) as [i|] eqn:Hi.
    + apply findIndex_Some_filter in Hi. case_decide; [lia | reflexivity].
    + rewrite (findIndex_None _ _ Hi). reflexivity.
Qed.

(** C7. A save whose document parses, followed by [getConfig] of its id,
    returns the saved object, whose [config] text is the input and which now
    carries the parsed document.  The save does not add a duplicate: the
    number of records with that id becomes one if there was none and is
    unchanged otherwise, so a registry with at most one record for the id
    has exactly one afterwards; and a further save under the same id returns
    the newer object from [getConfig] and leaves the length of the list and
    the number of records with that id as they were. *)
Theorem save_then_get (s : St) c v p :
  heap s !! c = Some v -> TOML_parse (config v) = inl p ->
  let s' := snd (save c s) in
  getConfig (id v) s' = (Normal (Some c), s')
  /\ (exists v', heap s' !! c = Some v' /\ config v' = config v /\ id v' = id v)
  /\ count_id s' (id v) = Nat.max 1 (count_id s (id v))
  /\ (count_id s (id v) <= 1 -> count_id s' (id v) = 1)
  /\ (forall c2 v2 p2,
        heap s' !! c2 = Some v2 -> id v2 = id v ->
        TOML_parse (config v2) = inl p2 ->
        let s'' := snd (save c2 s') in
        getConfig (id v) s'' = (Normal (Some c2), s'')
        /\ length (configs s'') = length (configs s')
        /\ count_id s'' (id v) = count_id s' (id v)).
Proof.
  intros Hc Hp s'.
  destruct (save_once s c v p Hc Hp) as (Hg & Hh & Hcnt & Hlen). fold s' in Hg, Hh, Hcnt, Hlen.
  split; [exact Hg |]. split; [eauto |]. split; [exact Hcnt |].
  split; [intros Hle; rewrite Hcnt; lia |].
  intros c2 v2 p2 Hc2 Hid Hp2 s''.
  destruct (save_once s' c2 v2 p2 Hc2 Hp2) as (Hg2 & _ & Hcnt2 & Hlen2).
  fold s'' in Hg2, Hcnt2, Hlen2. rewrite Hid in *.
  split; [exact Hg2 |]. split.
  - rewrite Hlen2. case_decide; [lia | reflexivity].
  - rewrite Hcnt2. lia.
Qed.

(** ** A write that fails *)

(** C4 (as the code has it).  When the write of [configs.json] fails, the
    caller gets the failure: [saveConfig] throws the write error wrapped as
    an invalid-configuration error, [deleteConfig] throws the write error
    itself.  The in-memory set keeps the change made before the write: the
    saved object is in the list and carries its parsed document, the deleted
    record is gone from it. *)
Theorem write_failure_surfaced (s : St) (msg : string) :
  next_failure (fs_script s) = Some msg ->
  (forall c v p,
     heap s !! c = Some v -> TOML_parse (config v) = inl p ->
     fst (save c s) = Throw (InvalidConfig msg)
     /\ configs (snd (save c s)) = upserted c (id v) (after_parse c v p s)
     /\ c ∈ configs (snd (save c s))
     /\ heap (snd (save c s)) !! c = Some (with_parsedConfig p v))
  /\ (forall cid c,
       getConfig cid s = (Normal (Some c), s) ->
       fst (deleteConfig cid s) = Throw (mkError msg)
       /\ configs (snd (deleteConfig cid s)) = without cid s
       /\ c ∈ configs s /\ (c ∉ configs (snd (deleteConfig cid s)))).
Proof.
  intros Hfs. split.
  - intros c v p Hc Hp.
    destruct (saveConfig_memory _ _ _ _ Hc Hp) as [Hcs Hh].
    split; [| split; [exact Hcs | split]].
    + rewrite (saveConfig_parsed _ _ _ _ Hc Hp), Hfs. reflexivity.
    + rewrite Hcs. apply elem_of_upsert.
    + rewrite Hh. apply lookup_insert_eq.
  - intros cid c Hg.
    destruct (getConfig_found _ _ _ Hg) as [Hin (v & Hc & Hid)].
    destruct (deleteConfig_found _ _ _ Hg) as [Hd _].
    assert (Hhas : has_id s cid c = true).
    { unfold has_id. rewrite Hc. apply bool_decide_eq_true. exact Hid. }
    assert (Hs1 : fs_script (snd (stopFrp c s)) = fs_script s
                  /\ without cid (snd (stopFrp c s)) = without cid s).
    { destruct (processes s !! id v) as [q|] eqn:Hq.
      - rewrite (stopFrp_tracked _ _ _ _ Hc Hq). simpl.
        split; [reflexivity |]. apply without_stopped. exact Hc.
      - rewrite (stopFrp_untracked _ _ _ Hc Hq). auto. }
    destruct Hs1 as (Hfs1 & Hw).
    assert (Hcfg : configs (snd (deleteConfig cid s)) = without cid s).
    { rewrite Hd. unfold bind at 1. unfold modify at 1.
      rewrite write_configs_configs. tidy. exact Hw. }
    split.
    { rewrite Hd. unfold bind at 1. unfold modify at 1.
      rewrite write_configs_fails with (msg := msg)
        by (tidy; rewrite Hfs1; exact Hfs).
      reflexivity. }
    split; [exact Hcfg |]. split; [exact Hin |].
    rewrite Hcfg. apply not_in_without. exact Hhas.
Qed.

(** ** Deleting *)





(** ** Starting *)

(** A start in which the write and the spawn succeed, whatever arrives
    during the write: it is the start made in the state the arrivals have
    left. *)
Lemma startFrp_during_succeeds (s : St) c v arrivals :
  heap s !! c = Some v ->
  next_failure (fs_script s) = None -> next_failure (spawn_script s) = None ->
  startFrp_during arrivals c s = (Normal tt, started c v (snd (deliver arrivals s))).
Proof.
  intros Hc Hfs Hsp. unfold startFrp_during. run_step.
  rewrite (bind_Normal _ _ _ _ _ (deliver_returns arrivals s)).
  set (s2 := snd (deliver arrivals s)).
  assert (Hfs2 : next_failure (fs_script s2) = None).
  { unfold s2. rewrite (preserves_deliver fs_script) by reflexivity. exact Hfs. }
  assert (Hsp2 : next_failure (spawn_script s2) = None).
  { unfold s2. rewrite (preserves_deliver spawn_script) by reflexivity. exact Hsp. }
  destruct (deliver_drifted arrivals s) as (_ & _ & Hh). fold s2 in Hh.
  destruct (Hh c) as [Hc2 | (v0 & Hv0 & Hc2)].
  - rewrite Hc in Hc2. do 6 run_step. unfold modify, started. tidy. reflexivity.
  - assert (v0 = v) by congruence. subst v0.
    do 6 run_step. unfold modify, started. tidy. reflexivity.
Qed.

Lemma startFrp_succeeds (s : St) c v :
  heap s !! c = Some v ->
  next_failure (fs_script s) = None -> next_failure (spawn_script s) = None ->
  startFrp c s = (Normal tt, started c v s).
Proof. intros Hc Hfs Hsp. apply (startFrp_during_succeeds s c v [] Hc Hfs Hsp). Qed.

Lemma startFrp_write_fails (s : St) c v msg :
  heap s !! c = Some v -> next_failure (fs_script s) = Some msg ->
  startFrp c s
  = (Throw (mkError msg),
     after_failed_write (put_toml (id v) (config v))
       (set_fs_script (tail (fs_script s)) s)).
Proof.
  intros Hc Hfs. unfold startFrp, startFrp_during. do 2 run_step.
  apply bind_Throw. apply writeFile_fails. exact Hfs.
Qed.

Lemma startFrp_spawn_throws (s : St) c v msg :
  heap s !! c = Some v ->
  next_failure (fs_script s) = None -> next_failure (spawn_script s) = Some msg ->
  startFrp c s =
    (Throw (mkError msg),
     set_spawn_script (tail (spawn_script s))
       (set_toml_files (<[id v := config v]> (toml_files s))
          (set_fs_script (tail (fs_script s)) s))).
Proof.
  intros Hc Hfs Hsp. unfold startFrp, startFrp_during. do 3 run_step.
  erewrite bind_Throw by (apply spawn_throws; exact Hsp).
  tidy. reflexivity.
Qed.

Lemma fresh_child_None (s : St) : spawned s !! fresh (dom (spawned s)) = None.
Proof. apply not_elem_of_dom. apply is_fresh. Qed.

(** C1 (as the code has it).  [startFrp] has no test for a process already
    tracked under the id.  For a configuration whose id has a tracked
    process, a second [startFrp] in which the write and the spawn succeed
    returns normally: it spawns another child, the process-table entry of the
    id is overwritten with the new child, the first child is not sent any
    signal and stays spawned, the other entries of the table are untouched,
    and the object is marked running and announced. *)
Theorem second_start_replaces_tracked (s : St) c v (p : ChildProcess) :
  heap s !! c = Some v ->
  processes s !! id v = Some p -> is_Some (spawned s !! p) ->
  next_failure (fs_script s) = None -> next_failure (spawn_script s) = None ->
  let p' := fresh (dom (spawned s)) in
  let s' := snd (startFrp c s) in
  fst (startFrp c s) = Normal tt
  /\ p' <> p
  /\ processes s' !! id v = Some p'
  /\ spawned s' !! p' = Some (id v)
  /\ spawned s' !! p = spawned s !! p
  /\ signalled s' = signalled s
  /\ (forall cid, cid <> id v -> processes s' !! cid = processes s !! cid)
  /\ heap s' !! c = Some (with_isRunning true v)
  /\ events s' = (events s ++ [StatusChanged (with_isRunning true v)]).
Proof.
  intros Hc Hp Hsp Hfs Hsps p' s'. unfold s'.
  rewrite (startFrp_succeeds _ _ _ Hc Hfs Hsps). simpl.
  assert (Hne : p' <> p).
  { intros Heq. destruct Hsp as [a Ha]. rewrite <- Heq in Ha.
    unfold p' in Ha. rewrite fresh_child_None in Ha. discriminate. }
  split; [reflexivity |]. split; [exact Hne |].
  split; [apply lookup_insert_eq |]. split; [apply lookup_insert_eq |].
  split; [apply lookup_insert_ne; exact Hne |]. split; [reflexivity |].
  split; [intros cid Hcid; apply lookup_insert_ne; congruence |].
  split; [apply lookup_insert_eq | reflexivity].
Qed.

(** ** A launch that fails *)

(** C6 (as the code has it).  A launch failure that [spawn] reports through
    the child's ['error'] event comes after [startFrp] has returned: the call
    has registered the child under the id, marked the object running, sent
    the status message and returned normally.  The ['error'] listener then
    removes the entry of the id, marks the object stopped, sends the status
    message and after it the error message for the id, carrying the text of
    the error.  When [spawn] itself throws, [startFrp] throws that error,
    nothing is registered and the manager sends no message. *)
Theorem launch_failure_handling (s : St) c v :
  heap s !! c = Some v -> next_failure (fs_script s) = None ->
  (next_failure (spawn_script s) = None ->
   forall msg,
     let p := fresh (dom (spawned s)) in
     let s1 := snd (startFrp c s) in
     let s2 := snd (dispatch p (ProcessError msg) s1) in
     fst (startFrp c s) = Normal tt
     /\ processes s1 !! id v = Some p
     /\ heap s1 !! c = Some (with_isRunning true v)
     /\ fst (dispatch p (ProcessError msg) s1) = Normal tt
     /\ processes s2 !! id v = None
     /\ heap s2 !! c = Some (with_isRunning false v)
     /\ events s2 =
          (events s ++ [StatusChanged (with_isRunning true v);
                        StatusChanged (with_isRunning false v);
                        FrpError (id v) msg]))
  /\ (forall msg,
        next_failure (spawn_script s) = Some msg ->
        fst (startFrp c s) = Throw (mkError msg)
        /\ processes (snd (startFrp c s)) = processes s
        /\ heap (snd (startFrp c s)) = heap s
        /\ events (snd (startFrp c s)) = events s).
Proof.
  intros Hc Hfs. split.
  - intros Hsp msg p s1 s2. unfold s2, s1.
    rewrite (startFrp_succeeds _ _ _ Hc Hfs Hsp).
    rewrite (dispatch_listener _ _ c) by (simpl; apply lookup_insert_eq).
    rewrite (on_error_spec _ _ (with_isRunning true v))
      by (simpl; apply lookup_insert_eq).
    simpl. split; [reflexivity |]. split; [apply lookup_insert_eq |].
    split; [apply lookup_insert_eq |]. split; [reflexivity |].
    split; [apply lookup_delete_eq |]. split; [apply lookup_insert_eq |].
    rewrite <- !app_assoc. reflexivity.
  - intros msg Hsp. rewrite (startFrp_spawn_throws _ _ _ _ Hc Hfs Hsp).
    simpl. auto.
Qed.

(** ** Start-up *)

Lemma no_failures_next script : no_failures script -> next_failure script = None.
Proof.
  intros H. destruct script as [|[msg|] rest]; try reflexivity.
  apply Forall_cons in H as [H _]. discriminate.
Qed.

Lemma no_failures_tail script : no_failures script -> no_failures (tail script).
Proof.
  intros H. destruct script as [|o rest]; [exact H |].
  apply Forall_cons in H as [_ H]. exact H.
Qed.

(** One turn of the loop of [startAutoStartConfigs]: it never throws, and it
    is one of: nothing to do; a start that went through; a start that threw,
    reported as an error message. *)
Lemma autoStartConfig_step (s : St) c v :
  heap s !! c = Some v ->
  fst (autoStartConfig c s) = Normal tt
  /\ ((eligible v = false /\ snd (autoStartConfig c s) = s)
      \/ (eligible v = true
          /\ next_failure (fs_script s) = None
          /\ next_failure (spawn_script s) = None
          /\ snd (autoStartConfig c s) = started c v s)
      \/ (eligible v = true
          /\ exists msg s1,
               snd (autoStartConfig c s)
               = set_events
                   (events s1 ++ [FrpError (id v) ("自动启动失败: " +:+ msg)]) s1
               /\ heap s1 = heap s /\ events s1 = events s
               /\ spawned s1 = spawned s /\ processes s1 = processes s
               /\ configs s1 = configs s
               /\ (next_failure (fs_script s) = Some msg
                   \/ next_failure (spawn_script s) = Some msg)
               /\ (fs_script s1 = fs_script s \/ fs_script s1 = tail (fs_script s))
               /\ (spawn_script s1 = spawn_script s
                   \/ spawn_script s1 = tail (spawn_script s)))).
Proof.
  intros Hc. unfold autoStartConfig, bind. rewrite (deref_Some _ _ _ Hc).
  fold (eligible v). destruct (eligible v) eqn:He.
  2:{ split; [reflexivity |]. left. auto. }
  unfold try_catch.
  destruct (next_failure (fs_script s)) as [msg|] eqn:Hfs.
  { rewrite (startFrp_write_fails _ _ _ _ Hc Hfs). split; [reflexivity |].
    right. right. split; [reflexivity |].
    eexists msg, _. split; [reflexivity |].
    rewrite !after_failed_write_keeps by reflexivity. tidy. auto 10. }
  destruct (next_failure (spawn_script s)) as [msg|] eqn:Hsp.
  { rewrite (startFrp_spawn_throws _ _ _ _ Hc Hfs Hsp). split; [reflexivity |].
    right. right. split; [reflexivity |].
    eexists msg, _. split; [reflexivity |]. tidy. auto 10. }
  rewrite (startFrp_succeeds _ _ _ Hc Hfs Hsp). split; [reflexivity |].
  right. left. auto.
Qed.

Lemma tracked_started (s : St) c v cid :
  tracked s cid \/ cid = id v -> tracked (started c v s) cid.
Proof.
  intros H. unfold tracked, started. tidy.
  destruct (decide (cid = id v)) as [-> | Hne].
  - exists (fresh (dom (spawned s))). split; apply lookup_insert_eq.
  - destruct H as [(p & Hp & Hs) | H]; [| contradiction].
    exists p. split.
    + rewrite lookup_insert_ne by congruence. exact Hp.
    + rewrite lookup_insert_ne; [exact Hs |].
      intros Heq. rewrite <- Heq in Hs.
      assert (Hn : spawned s !! fresh (dom (spawned s)) = None)
        by (apply not_elem_of_dom, is_fresh).
      congruence.
Qed.

(** What every turn guarantees, whichever of the three it is. *)
Lemma autoStartConfig_frame (s : St) c v :
  heap s !! c = Some v ->
  let s' := snd (autoStartConfig c s) in
  (forall c', c' <> c -> heap s' !! c' = heap s !! c')
  /\ (exists more, events s' = events s ++ more)
  /\ spawned s ⊆ spawned s'
  /\ (no_failures (fs_script s) -> no_failures (fs_script s'))
  /\ (no_failures (spawn_script s) -> no_failures (spawn_script s'))
  /\ configs s' = configs s
  /\ (forall cid, tracked s cid -> tracked s' cid)
  /\ (forall cid, (eligible v = true -> id v <> cid) ->
        processes s' !! cid = processes s !! cid
        /\ forall p, spawned s' !! p = Some cid -> spawned s !! p = Some cid).
Proof.
  intros Hc s'.
  destruct (autoStartConfig_step s c v Hc)
    as [_ [[He H] | [(He & _ & _ & H) | (He & H)]]].
  - unfold s'. rewrite H. split; [auto |].
    split; [exists []; symmetry; apply app_nil_r |].
    split; [reflexivity |]. auto 10.
  - unfold s'. rewrite H. split.
    { unfold started. tidy. intros c' Hne. apply lookup_insert_ne. congruence. }
    split; [unfold started; tidy; eauto |]. split.
    { unfold started. tidy. apply insert_subseteq.
      apply not_elem_of_dom, is_fresh. }
    split; [unfold started; tidy; apply no_failures_tail |].
    split; [unfold started; tidy; apply no_failures_tail |].
    split; [reflexivity |]. split.
    { intros cid Ht. apply tracked_started. left. exact Ht. }
    intros cid Hne. unfold started. tidy. specialize (Hne He). split.
    { apply lookup_insert_ne. exact Hne. }
    intros p Hp. destruct (decide (fresh (dom (spawned s)) = p)) as [<- | Hnp].
    + rewrite lookup_insert_eq in Hp. congruence.
    + rewrite lookup_insert_ne in Hp by exact Hnp. exact Hp.
  - destruct H as (msg & s1 & H & Hh & Hev & Hsp & Hpr & Hcs & _ & Hf1 & Hf2).
    unfold s'. rewrite H. tidy. rewrite Hh, Hev, Hsp, Hpr, Hcs.
    split; [auto |]. split; [eauto |]. split; [reflexivity |].
    split.
    { intros Hn. destruct Hf1 as [-> | ->]; [exact Hn | apply no_failures_tail, Hn]. }
    split.
    { intros Hn. destruct Hf2 as [-> | ->]; [exact Hn | apply no_failures_tail, Hn]. }
    split; [reflexivity |]. split; [| auto].
    intros cid (p & Hp & Hs). exists p. tidy. rewrite Hpr, Hsp. auto.
Qed.

Lemma elem_of_snoc_app {A} (l more : list A) x : x ∈ (l ++ [x]) ++ more.
Proof. apply elem_of_app. left. apply elem_of_app. right. apply list_elem_of_here. Qed.

Lemma spawned_None_weaken (s0 s1 : St) p :
  spawned s0 ⊆ spawned s1 -> spawned s1 !! p = None -> spawned s0 !! p = None.
Proof.
  intros Hsub Hn. destruct (spawned s0 !! p) as [a|] eqn:Ha; [|reflexivity].
  rewrite (lookup_weaken _ _ _ _ Ha Hsub) in Hn. discriminate.
Qed.

Lemma start_went_through_weaken (s0 s1 s' : St) c v :
  spawned s0 ⊆ spawned s1 ->
  start_went_through s1 s' c v -> start_went_through s0 s' c v.
Proof.
  intros Hsub (Hh & He & (p & Hp & Hn) & Ht).
  split; [exact Hh |]. split; [exact He |]. split; [| exact Ht].
  exists p. split; [exact Hp |]. eapply spawned_None_weaken; eauto.
Qed.

Lemma attempted_weaken (s0 s1 s' : St) c v :
  spawned s0 ⊆ spawned s1 -> attempted s1 s' c v -> attempted s0 s' c v.
Proof.
  intros Hsub [H | H]; [left | right; exact H].
  apply (start_went_through_weaken s0 s1 s' c v Hsub H).
Qed.

(** The turn for [c] itself, seen from a later state [s'] that has only
    added messages and children, has not touched [c] and tracks the ids
    that were tracked. *)
Lemma autoStartConfig_outcome (s s' : St) c v :
  heap s !! c = Some v ->
  let s1 := snd (autoStartConfig c s) in
  heap s' !! c = heap s1 !! c ->
  (exists more, events s' = events s1 ++ more) ->
  spawned s1 ⊆ spawned s' ->
  (forall cid, tracked s1 cid -> tracked s' cid) ->
  (if eligible v then attempted s s' c v else heap s' !! c = Some v)
  /\ (no_failures (fs_script s) -> no_failures (spawn_script s) ->
      eligible v = true -> start_went_through s s' c v).
Proof.
  intros Hc s1 Hh [more He] Hsub Htr.
  assert (Hok : snd (autoStartConfig c s) = started c v s ->
                start_went_through s s' c v).
  { intros H. unfold s1 in *. rewrite H in *.
    split; [rewrite Hh; unfold started; tidy; apply lookup_insert_eq |].
    split; [rewrite He; unfold started; tidy; apply elem_of_snoc_app |].
    split.
    - exists (fresh (dom (spawned s))).
      split; [| apply not_elem_of_dom, is_fresh].
      eapply lookup_weaken; [| exact Hsub]. unfold started. tidy.
      apply lookup_insert_eq.
    - apply Htr. apply tracked_started. right. reflexivity. }
  destruct (autoStartConfig_step s c v Hc)
    as [_ [[Hel H] | [(Hel & _ & _ & H)
                     | (Hel & msg & s0 & H & Hh0 & He0 & _ & _ & _ & Hnf & _)]]];
    rewrite Hel.
  - split; [| intros _ _ [=]]. unfold s1 in Hh. rewrite H in Hh. congruence.
  - split; [left; exact (Hok H) | intros; exact (Hok H)].
  - split.
    + right. unfold s1 in *. rewrite H in *. tidy. split.
      * rewrite Hh. tidy. rewrite Hh0. exact Hc.
      * exists msg. rewrite He. tidy. apply elem_of_snoc_app.
    + intros Hn1 Hn2 _. apply no_failures_next in Hn1, Hn2.
      destruct Hnf; congruence.
Qed.

(** The loop over a list of distinct objects. *)
Lemma autostart_loop (l : list loc) :
  forall s : St,
    NoDup l -> (forall c, c ∈ l -> is_Some (heap s !! c)) ->
    let s' := snd (for_of l autoStartConfig s) in
    fst (for_of l autoStartConfig s) = Normal tt
    /\ (forall c, c ∉ l -> heap s' !! c = heap s !! c)
    /\ (exists more, events s' = events s ++ more)
    /\ spawned s ⊆ spawned s'
    /\ configs s' = configs s
    /\ (forall cid, tracked s cid -> tracked s' cid)
    /\ (forall cid,
          (forall c v, c ∈ l -> heap s !! c = Some v -> eligible v = true ->
                       id v <> cid) ->
          processes s' !! cid = processes s !! cid
          /\ forall p, spawned s' !! p = Some cid -> spawned s !! p = Some cid)
    /\ (forall c v, c ∈ l -> heap s !! c = Some v ->
          if eligible v then attempted s s' c v else heap s' !! c = Some v)
    /\ (no_failures (fs_script s) -> no_failures (spawn_script s) ->
        no_failures (fs_script s') /\ no_failures (spawn_script s')
        /\ forall c v, c ∈ l -> heap s !! c = Some v -> eligible v = true ->
             start_went_through s s' c v).
Proof.
  induction l as [|x l IH]; intros s Hnd Hlive; simpl.
  { split; [reflexivity |]. split; [auto |].
    split; [exists []; symmetry; apply app_nil_r |].
    split; [reflexivity |]. split; [reflexivity |].
    split; [auto |]. split; [auto |].
    split; [intros c v Hin; apply elem_of_nil in Hin; contradiction |].
    intros H1 H2. split; [exact H1 |]. split; [exact H2 |].
    intros c v Hin. apply elem_of_nil in Hin. contradiction. }
  apply NoDup_cons in Hnd as [Hx Hnd].
  destruct (Hlive x) as [vx Hvx]; [apply list_elem_of_here |].
  destruct (autoStartConfig_step s x vx Hvx) as [Hfst _].
  destruct (autoStartConfig_frame s x vx Hvx)
    as (Fh & Fe & Fs & Ff & Fp & Fc & Ft & Fu).
  unfold bind. destruct (autoStartConfig x s) as [r s1] eqn:Hstep.
  cbn [fst snd] in Hfst, Fh, Fe, Fs, Ff, Fp, Fc, Ft, Fu. subst r.
  assert (Hlive1 : forall c, c ∈ l -> is_Some (heap s1 !! c)).
  { intros c Hin. rewrite Fh by (intros ->; contradiction).
    apply Hlive. apply list_elem_of_further. exact Hin. }
  destruct (IH s1 Hnd Hlive1) as (I1 & Ih & Ie & Is & Ic & It & Iu & Io & In).
  set (s' := snd (for_of l autoStartConfig s1)) in *.
  assert (Hx' : heap s' !! x = heap s1 !! x) by (apply Ih; exact Hx).
  assert (Hout := autoStartConfig_outcome s s' x vx Hvx).
  rewrite Hstep in Hout. cbn [snd] in Hout.
  destruct (Hout Hx' Ie Is It) as [Ox Onx].
  split; [exact I1 |]. split.
  { intros c Hc. rewrite Ih by (intros ?; apply Hc, list_elem_of_further; assumption).
    apply Fh. intros ->. apply Hc, list_elem_of_here. }
  split.
  { destruct Fe as [m1 Fe]. destruct Ie as [m2 Ie].
    exists (m1 ++ m2). rewrite Ie, Fe, <- app_assoc. reflexivity. }
  split; [etrans; eauto |]. split; [congruence |].
  split; [auto |]. split.
  { intros cid Hcid.
    destruct (Fu cid) as [Fu1 Fu2].
    { intros Hel. apply (Hcid x vx); [apply list_elem_of_here | exact Hvx | exact Hel]. }
    destruct (Iu cid) as [Iu1 Iu2].
    { intros c v Hin Hc. assert (c <> x) by (intros ->; contradiction).
      rewrite Fh in Hc by assumption.
      apply (Hcid c v); [apply list_elem_of_further; exact Hin | exact Hc]. }
    split; [rewrite Iu1; exact Fu1 | auto]. }
  split.
  { intros c v Hin Hc. apply elem_of_cons in Hin as [-> | Hin].
    - assert (v = vx) by congruence. subst v. exact Ox.
    - assert (c <> x) by (intros ->; contradiction).
      specialize (Io c v Hin). rewrite Fh in Io by assumption.
      specialize (Io Hc). destruct (eligible v); [| exact Io].
      eapply attempted_weaken; eauto. }
  intros Hn1 Hn2. destruct (In (Ff Hn1) (Fp Hn2)) as (N1 & N2 & N3).
  split; [exact N1 |]. split; [exact N2 |].
  intros c v Hin Hc Hel. apply elem_of_cons in Hin as [-> | Hin].
  - assert (v = vx) by congruence. subst v. auto.
  - assert (c <> x) by (intros ->; contradiction).
    eapply start_went_through_weaken; [exact Fs |].
    apply N3; [exact Hin | rewrite Fh by assumption; exact Hc | exact Hel].
Qed.

(** The array [JSON.parse] builds: new, distinct objects holding the records,
    nothing else changed. *)
Lemma new_objects_spec (vs : list Config) :
  forall s : St,
    exists cs h',
      new_objects vs s = (Normal cs, set_heap h' s)
      /\ heap s ⊆ h'
      /\ Forall2 (fun c v => h' !! c = Some v) cs vs
      /\ NoDup cs
      /\ (forall c, c ∈ cs -> heap s !! c = None).
Proof.
  induction vs as [|v vs IH]; intros s.
  { exists [], (heap s). simpl. split; [destruct s; reflexivity |].
    split; [reflexivity |]. split; [constructor |]. split; [constructor |].
    intros c Hin. apply elem_of_nil in Hin. contradiction. }
  simpl. unfold bind at 1. unfold new_object.
  set (c := fresh (dom (heap s))).
  set (s1 := set_heap (<[c := v]> (heap s)) s).
  assert (Hfresh : heap s !! c = None) by apply fresh_loc_None.
  destruct (IH s1) as (cs & h' & Hrun & Hsub & Hall & Hnd & Hnew).
  exists (c :: cs), h'. unfold bind. rewrite Hrun. simpl.
  assert (Hsub0 : heap s ⊆ <[c := v]> (heap s)) by (apply insert_subseteq, Hfresh).
  split; [reflexivity |]. split; [etrans; [exact Hsub0 | exact Hsub] |].
  split.
  { constructor; [| exact Hall].
    eapply lookup_weaken; [| exact Hsub]. simpl. apply lookup_insert_eq. }
  split.
  { constructor; [| exact Hnd]. intros Hin. apply Hnew in Hin.
    simpl in Hin. rewrite lookup_insert_eq in Hin. discriminate. }
  intros c' Hin. apply elem_of_cons in Hin as [-> | Hin]; [exact Hfresh |].
  apply Hnew in Hin. simpl in Hin.
  destruct (heap s !! c') as [a|] eqn:Ha; [| reflexivity].
  rewrite (lookup_weaken _ _ _ _ Ha Hsub0) in Hin. discriminate.
Qed.

(** [initConfigs] on a file that is absent, is not JSON or holds an array of
    configuration records: it returns normally.  It consumes one file-system
    outcome and leaves a list of distinct, live objects: the records of
    [configs.json], as [JSON.parse] gives them back, when the file was read
    and parsed, the empty list otherwise. *)
Lemma initConfigs_spec (s : St) :
  loadable (configs_json s) ->
  exists cs h',
    initConfigs s
    = (Normal tt, set_configs cs (set_heap h' (set_fs_script (tail (fs_script s)) s)))
    /\ heap s ⊆ h'
    /\ NoDup cs
    /\ ((next_failure (fs_script s) = None
         /\ exists rs, configs_json s = Some (JsonText rs)
                       /\ Forall2 (fun c v => h' !! c = Some v) cs (reloaded <$> rs))
        \/ (cs = [] /\ h' = heap s)).
Proof.
  intros Hl. unfold initConfigs, try_catch, bind, fs_call.
  destruct (next_failure (fs_script s)) as [msg|] eqn:Hfs.
  { exists [], (heap s). split; [reflexivity |]. split; [reflexivity |].
    split; [constructor | right; auto]. }
  unfold gets. simpl.
  destruct (configs_json s) as [[rs | text | text]|] eqn:Hj.
  - destruct (new_objects_spec (reloaded <$> rs) (set_fs_script (tail (fs_script s)) s))
      as (cs & h' & Hrun & Hsub & Hall & Hnd & _).
    rewrite Hrun. exists cs, h'. split; [reflexivity |]. split; [exact Hsub |].
    split; [exact Hnd |]. left. eauto.
  - exists [], (heap s). split; [reflexivity |]. split; [reflexivity |].
    split; [constructor | right; auto].
  - destruct (Hl text). reflexivity.
  - exists [], (heap s). split; [reflexivity |]. split; [reflexivity |].
    split; [constructor | right; auto].
Qed.

(** On any other file it leaves the states of the model. *)
Lemma initConfigs_ill_shaped (s : St) text :
  next_failure (fs_script s) = None -> configs_json s = Some (IllShaped text) ->
  exists w, fst (initConfigs s) = Outside w.
Proof.
  intros Hfs Hj. unfold initConfigs, try_catch.
  rewrite (bind_Normal _ _ _ _ _ (fs_call_succeeds _ Hfs)).
  unfold bind, gets. tidy. rewrite Hj. eexists. reflexivity.
Qed.

Lemma initConfigs_live (s : St) :
  loadable (configs_json s) ->
  let s1 := snd (initConfigs s) in
  fst (initConfigs s) = Normal tt
  /\ NoDup (configs s1) /\ (forall c, c ∈ configs s1 -> is_Some (heap s1 !! c))
  /\ processes s1 = processes s /\ spawned s1 = spawned s.
Proof.
  intros Hl s1. destruct (initConfigs_spec s Hl) as (cs & h' & Hrun & _ & Hnd & Hcase).
  unfold s1. rewrite Hrun. tidy. cbn [fst snd]. tidy.
  split; [reflexivity |]. split; [exact Hnd |]. split; [| auto].
  intros c Hin. destruct Hcase as [(_ & rs & _ & Hall) | [-> _]].
  - apply list_elem_of_lookup in Hin as [i Hi].
    destruct (Forall2_lookup_l _ _ _ _ _ Hall Hi) as (v & _ & Hv). eauto.
  - apply elem_of_nil in Hin. contradiction.
Qed.


(** ** What is persisted *)

Lemma none_running_snapshot (s : St) :
  none_running (snapshot s)
  <-> (forall c v, c ∈ configs s -> heap s !! c = Some v -> isRunning v = false).
Proof.
  unfold none_running, snapshot. rewrite Forall_forall. split.
  - intros H c v Hin Hc. apply H. apply list_elem_of_omap. eauto.
  - intros H v Hin. apply list_elem_of_omap in Hin as (c & Hin & Hc). eauto.
Qed.

Lemma elem_of_upsert_inv {A} (p : A -> bool) (l : list A) c x :
  x ∈ match findIndex p l with
      | Some i => <[i := c]> l
      | None => l ++ [c]
      end ->
  x = c \/ x ∈ l.
Proof.
  destruct (findIndex p l) as [i|] eqn:Hi.
  - destruct (findIndex_Some _ _ _ Hi) as (y & Hy & _).
    rewrite (insert_take_drop_at _ _ _ _ Hy).
    rewrite elem_of_app, elem_of_cons.
    intros [H | [H | H]]; [right | left; exact H | right].
    + exact (subseteq_take i l x H).
    + exact (subseteq_drop (S i) l x H).
  - rewrite elem_of_app, list_elem_of_singleton. tauto.
Qed.

Lemma saveConfig_malformed (s : St) c v msg :
  heap s !! c = Some v -> TOML_parse (config v) = inr msg ->
  save c s = (Throw (InvalidConfig msg), s).
Proof.
  intros Hc Hp. unfold saveConfig, try_catch, bind.
  rewrite (deref_Some _ _ _ Hc), Hp. reflexivity.
Qed.

Lemma after_failed_write_file data (t : St) :
  let t' := after_failed_write (put_configs data) t in
  configs_json t' = configs_json t
  \/ (exists text, configs_json t' = Some (Garbage text))
  \/ configs_json t' = Some (JsonText data).
Proof.
  unfold after_failed_write.
  destruct (torn_script t) as [|[| text |] rest]; tidy; eauto.
Qed.

(** The file a write leaves: the data when the write succeeds; the former
    content, a text that is not JSON or the data when it is rejected. *)
Lemma write_configs_file (s : St) :
  let s' := snd (write_configs s) in
  (fst (write_configs s) = Normal tt
   /\ configs_json s' = Some (JsonText (snapshot s')))
  \/ (is_thrown (fst (write_configs s)) = true
      /\ (configs_json s' = configs_json s
          \/ (exists text, configs_json s' = Some (Garbage text))
          \/ configs_json s' = Some (JsonText (snapshot s')))).
Proof.
  intros s'. unfold s'.
  destruct (next_failure (fs_script s)) as [msg|] eqn:Hfs.
  - right. rewrite (write_configs_fails _ _ Hfs). split; [reflexivity |].
    cbn [snd]. unfold snapshot.
    rewrite (after_failed_write_keeps heap), (after_failed_write_keeps configs)
      by reflexivity.
    match goal with
      | |- context [after_failed_write _ ?t] => exact (after_failed_write_file _ t)
      end.
  - left. rewrite (write_configs_succeeds _ Hfs). split; reflexivity.
Qed.

Lemma is_thrown_Normal {A} (r : Completion A) (a : A) :
  r = Normal a -> is_thrown r = true -> False.
Proof. intros ->. discriminate. Qed.

(** What a save or a delete leaves in memory and in the file. *)
Lemma store_call (t : St) (op : Op Parsed) :
  writes_registry op = true ->
  let t' := snd (call op t) in
  (fst (call op t) = Normal tt ->
   configs_json t' = Some (JsonText (snapshot t'))
   \/ exists cid, op = OpDelete cid /\ t' = t)
  /\ (configs_json t' = configs_json t
      \/ (exists text, configs_json t' = Some (Garbage text))
      \/ configs_json t' = Some (JsonText (snapshot t'))).
Proof.
  intros Hop.
  destruct op as [| v | cid | | | | | | |]; try discriminate;
    intros t'; unfold t'; clear t'.
  - (* save *)
    set (c0 := fresh (dom (heap t))).
    set (t0 := set_heap (<[c0 := v]> (heap t)) t).
    change (call (OpSave v) t) with (save c0 t0).
    assert (Hc0 : heap t0 !! c0 = Some v) by apply lookup_insert_eq.
    destruct (TOML_parse (config v)) as [p | msg] eqn:Hp.
    2:{ rewrite (saveConfig_malformed _ _ _ _ Hc0 Hp).
        split; [discriminate | left; reflexivity]. }
    rewrite (saveConfig_parsed _ _ _ _ Hc0 Hp).
    change (fs_script t0) with (fs_script t).
    destruct (next_failure (fs_script t)) as [msg|] eqn:Hfs; cbn [fst snd].
    + split; [discriminate |].
      unfold snapshot.
      rewrite (after_failed_write_keeps heap), (after_failed_write_keeps configs)
        by reflexivity.
      match goal with
      | |- context [after_failed_write _ ?t] => exact (after_failed_write_file _ t)
      end.
    + split; [intros _; left; reflexivity | right; right; reflexivity].
  - (* delete *)
    change (call (OpDelete cid) t) with (deleteConfig cid t).
    destruct (List.find (has_id t cid) (configs t)) as [c|] eqn:Hf.
    2:{ assert (Hd : deleteConfig cid t = (Normal tt, t))
          by (unfold deleteConfig, deleteConfig_during, bind, getConfig, gets;
              rewrite Hf; reflexivity).
        rewrite Hd. cbn [fst snd]. split; [eauto | left; reflexivity]. }
    assert (Hg : getConfig cid t = (Normal (Some c), t))
      by (unfold getConfig, gets; rewrite Hf; reflexivity).
    destruct (deleteConfig_found _ _ _ Hg) as [Hd _]. rewrite Hd.
    set (t1 := snd (stopFrp c t)).
    assert (Hj1 : configs_json t1 = configs_json t).
    { apply (preserves_stopFrp_file c t). }
    set (t2 := set_configs (without cid t1) t1).
    change ((modify (fun s1 => set_configs (without cid s1) s1) ;;; write_configs) t1)
      with (write_configs t2).
    change (configs_json t) with (configs_json t) in *.
    assert (Hj2 : configs_json t2 = configs_json t) by exact Hj1.
    rewrite <- Hj2.
    destruct (write_configs_file t2) as [[Hn Hfile] | [Hth Hfile]].
    + split; [intros _; left; exact Hfile | right; right; exact Hfile].
    + split; [| exact Hfile].
      intros Hn. destruct (is_thrown_Normal _ _ Hn Hth).
Qed.

(** One save or delete keeps the memory free of running marks. *)
Lemma store_op_step (t : St) (op : Op Parsed) :
  store_op op -> none_running (snapshot t) ->
  none_running (snapshot (snd (call op t))).
Proof.
  intros Hop Hmem. rewrite none_running_snapshot in Hmem.
  destruct op as [| v | cid | | | | | | |]; simpl in Hop; try contradiction.
  - (* save *)
    set (c0 := fresh (dom (heap t))).
    set (t0 := set_heap (<[c0 := v]> (heap t)) t).
    change (call (OpSave v) t) with (save c0 t0).
    assert (Hc0 : heap t0 !! c0 = Some v) by apply lookup_insert_eq.
    assert (Hmem0 : forall c v', c ∈ configs t0 -> heap t0 !! c = Some v' ->
                                 isRunning v' = false).
    { intros c v' Hin Hc. simpl in Hin, Hc.
      destruct (decide (c0 = c)) as [<- | Hne].
      - rewrite lookup_insert_eq in Hc. congruence.
      - rewrite lookup_insert_ne in Hc by exact Hne. eauto. }
    apply none_running_snapshot.
    destruct (TOML_parse (config v)) as [p | msg] eqn:Hp.
    + destruct (saveConfig_memory _ _ _ _ Hc0 Hp) as [Hcs Hh].
      intros c v' Hin Hc. rewrite Hcs in Hin. rewrite Hh in Hc.
      destruct (decide (c0 = c)) as [<- | Hne].
      * rewrite lookup_insert_eq in Hc. injection Hc as <-. exact Hop.
      * rewrite lookup_insert_ne in Hc by exact Hne.
        apply elem_of_upsert_inv in Hin as [-> | Hin]; [contradiction |].
        apply (Hmem0 c v' Hin Hc).
    + rewrite (saveConfig_malformed _ _ _ _ Hc0 Hp). exact Hmem0.
  - (* delete *)
    change (call (OpDelete cid) t) with (deleteConfig cid t).
    destruct (List.find (has_id t cid) (configs t)) as [c|] eqn:Hf.
    2:{ assert (Hd : deleteConfig cid t = (Normal tt, t))
          by (unfold deleteConfig, deleteConfig_during, bind, getConfig, gets;
              rewrite Hf; reflexivity).
        rewrite Hd. apply none_running_snapshot. exact Hmem. }
    assert (Hg : getConfig cid t = (Normal (Some c), t))
      by (unfold getConfig, gets; rewrite Hf; reflexivity).
    destruct (getConfig_found _ _ _ Hg) as [Hin (v & Hc & Hid)].
    destruct (deleteConfig_found _ _ _ Hg) as [Hd _]. rewrite Hd.
    set (t1 := snd (stopFrp c t)).
    assert (H1 : configs t1 = configs t
                 /\ forall c' v', heap t1 !! c' = Some v' ->
                       isRunning v' = false \/ heap t !! c' = Some v').
    { unfold t1. destruct (processes t !! id v) as [q|] eqn:Hq.
      - rewrite (stopFrp_tracked _ _ _ _ Hc Hq). simpl.
        split; [reflexivity |].
        intros c' v' Hc'. destruct (decide (c = c')) as [<- | Hne].
        + rewrite lookup_insert_eq in Hc'. injection Hc' as <-. left. reflexivity.
        + rewrite lookup_insert_ne in Hc' by exact Hne. right. exact Hc'.
      - rewrite (stopFrp_untracked _ _ _ Hc Hq). auto. }
    destruct H1 as (Hcs1 & Hh1).
    set (t2 := set_configs (without cid t1) t1).
    change ((modify (fun s1 => set_configs (without cid s1) s1) ;;; write_configs) t1)
      with (write_configs t2).
    apply none_running_snapshot. intros c' v' Hin' Hc'.
    rewrite write_configs_configs in Hin'. rewrite write_configs_heap in Hc'.
    simpl in Hin', Hc'. unfold without in Hin'.
    apply list_elem_of_In, List.filter_In in Hin' as [Hin' _].
    apply list_elem_of_In in Hin'. rewrite Hcs1 in Hin'.
    destruct (Hh1 c' v' Hc') as [? | Hold]; [assumption |].
    apply (Hmem c' v' Hin' Hold).
Qed.

Lemma calls_snoc (ops : list (Op Parsed)) op (s : St) :
  calls (ops ++ [op]) s = snd (call op (calls ops s)).
Proof. unfold run. rewrite foldl_app. reflexivity. Qed.

Lemma store_op_writes (op : Op Parsed) : store_op op -> writes_registry op = true.
Proof. destruct op; simpl; intros H; first [reflexivity | contradiction]. Qed.

Lemma store_ops_invariant (ops : list (Op Parsed)) (s : St) :
  Forall store_op ops ->
  none_running (snapshot s) -> none_running (persisted s) ->
  loadable (configs_json s) ->
  let s' := calls ops s in
  none_running (snapshot s') /\ none_running (persisted s')
  /\ loadable (configs_json s').
Proof.
  intros Hops Hmem Hdisk Hl. induction ops as [|op ops IH] using rev_ind.
  { simpl. auto. }
  apply Forall_app in Hops as [Hops Hop]. apply Forall_cons in Hop as [Hop _].
  destruct (IH Hops) as (Im & Id & Il). clear IH.
  intros s'. unfold s'. rewrite calls_snoc.
  pose proof (store_op_step (calls ops s) op Hop Im) as Sm.
  destruct (store_call (calls ops s) op (store_op_writes op Hop)) as [_ Sf].
  split; [exact Sm |].
  destruct Sf as [Sf | [[text Sf] | Sf]]; unfold persisted, loadable; rewrite Sf.
  - split; [exact Id | exact Il].
  - split; [constructor | discriminate].
  - split; [exact Sm | discriminate].
Qed.

(** C2 (as the code has it).  [configs.json] holds whole records: after a
    save or a delete that returns normally and has written the file, the
    file holds the records of the in-memory list as they stand, [isRunning]
    and [parsedConfig] included (a delete of an id that is not there writes
    nothing).  When no record is marked running in memory or in the file at
    the start, and no saved record is marked running, then after a sequence
    of saves and deletes, whatever their writes did, no record in memory or
    in the file is marked running, and a new manager loads the file
    normally, with an empty process table and with every loaded
    configuration not marked running. *)
Theorem persisted_running_marks (s : St) (ops : list (Op Parsed)) :
  (forall op,
     writes_registry op = true -> fst (call op s) = Normal tt ->
     configs_json (snd (call op s)) = Some (JsonText (snapshot (snd (call op s))))
     \/ exists cid, op = OpDelete cid /\ snd (call op s) = s)
  /\ (Forall store_op ops ->
      none_running (snapshot s) -> none_running (persisted s) ->
      loadable (configs_json s) ->
      let s' := calls ops s in
      none_running (snapshot s') /\ none_running (persisted s')
      /\ (forall os_arch assets fs spawns,
            let b := cold_load os_arch assets fs spawns s' in
            fst (initConfigs (at_restart os_arch assets fs spawns s')) = Normal tt
            /\ processes b = ∅
            /\ (forall c, c ∈ configs b ->
                  exists v, heap b !! c = Some v /\ isRunning v = false))).
Proof.
  split.
  { intros op Hop. apply (store_call s op Hop). }
  intros Hops Hmem Hdisk Hl s'.
  destruct (store_ops_invariant ops s Hops Hmem Hdisk Hl) as (Im & Id & Il).
  fold s' in Im, Id, Il.
  split; [exact Im |]. split; [exact Id |].
  intros os_arch assets fs spawns b. unfold b, cold_load.
  set (b0 := at_restart os_arch assets fs spawns s').
  destruct (initConfigs_spec b0 Il) as (cs & h' & Hrun & _ & _ & Hcase).
  rewrite Hrun. cbn [fst snd]. tidy.
  split; [reflexivity |]. split; [reflexivity |]. intros c Hin.
  destruct Hcase as [(_ & rs & Hj & Hall) | [-> _]].
  - apply list_elem_of_lookup in Hin as [i Hi].
    destruct (Forall2_lookup_l _ _ _ _ _ Hall Hi) as (v & Hv & Hc).
    exists v. split; [exact Hc |].
    apply list_lookup_fmap_Some in Hv as (v0 & -> & Hv0).
    unfold persisted in Id. simpl in Hj. rewrite Hj in Id.
    unfold none_running in Id. rewrite Forall_forall in Id.
    apply (Id v0). apply list_elem_of_lookup. eauto.
  - apply elem_of_nil in Hin. contradiction.
Qed.

(** After a load, the auto-start loop returns normally. *)
Lemma autostart_loop_returns (s : St) :
  loadable (configs_json s) ->
  fst (startAutoStartConfigs (snd (initConfigs s))) = Normal tt
  /\ configs (snd (startAutoStartConfigs (snd (initConfigs s))))
     = configs (snd (initConfigs s)).
Proof.
  intros Hl. destruct (initConfigs_live s Hl) as (_ & Hnd & Hlive & _).
  destruct (autostart_loop _ _ Hnd Hlive) as (H1 & _ & _ & _ & Hc & _).
  unfold startAutoStartConfigs, bind, gets. split; assumption.
Qed.

(** * Further properties of the supervision methods *)

(** Results of calls and projections of updated states, reduced. *)
Ltac settle := cbn [fst snd]; tidy.

(** X1. [startFrp] whose write of the TOML file is refused: the call throws the
    write error before anything else happens.  No child is spawned (the next
    spawn outcome is not consumed), the TOML files of the other ids are not
    touched, and the process table, the objects, the listeners and the
    messages are as before. *)
Theorem start_write_failure_spawns_nothing (s : St) c v msg :
  heap s !! c = Some v -> next_failure (fs_script s) = Some msg ->
  let s' := snd (startFrp c s) in
  fst (startFrp c s) = Throw (mkError msg)
  /\ spawned s' = spawned s /\ spawn_script s' = spawn_script s
  /\ (forall cid, cid <> id v -> toml_files s' !! cid = toml_files s !! cid)
  /\ processes s' = processes s /\ heap s' = heap s
  /\ listeners s' = listeners s /\ events s' = events s
  /\ signalled s' = signalled s.
Proof.
  intros Hc Hfs s'. unfold s'.
  rewrite (startFrp_write_fails _ _ _ _ Hc Hfs). cbn [fst snd].
  split; [reflexivity |].
  split; [(rewrite after_failed_write_keeps by reflexivity; reflexivity) |].
  split; [(rewrite after_failed_write_keeps by reflexivity; reflexivity) |].
  split.
  { intros cid Hne. unfold after_failed_write. tidy.
    destruct (torn_script s) as [|[| text |] rest]; tidy;
      rewrite ?lookup_insert_ne by congruence; reflexivity. }
  repeat split; (rewrite after_failed_write_keeps by reflexivity; reflexivity).
Qed.

(** X2. [startFrp] on an id with no tracked process, when the write and the
    spawn succeed: exactly one child is created, on the TOML file of the id,
    which holds the text of the configuration; the process table gains the
    one entry of the id; the listeners of the child hold the object that was
    passed; the object is marked running and exactly one status message,
    with [isRunning = true], is sent. *)
Theorem start_untracked_registers_one (s : St) c v :
  heap s !! c = Some v -> processes s !! id v = None ->
  next_failure (fs_script s) = None -> next_failure (spawn_script s) = None ->
  let p := fresh (dom (spawned s)) in
  let s' := snd (startFrp c s) in
  fst (startFrp c s) = Normal tt
  /\ spawned s !! p = None
  /\ spawned s' = <[p := id v]> (spawned s)
  /\ size (spawned s') = S (size (spawned s))
  /\ processes s' = <[id v := p]> (processes s)
  /\ size (processes s') = S (size (processes s))
  /\ listeners s' !! p = Some c
  /\ toml_files s' !! id v = Some (config v)
  /\ heap s' = <[c := with_isRunning true v]> (heap s)
  /\ events s' = (events s ++ [StatusChanged (with_isRunning true v)]).
Proof.
  intros Hc Hp Hfs Hsp p s'. unfold s'.
  rewrite (startFrp_succeeds _ _ _ Hc Hfs Hsp). unfold started. settle.
  assert (Hfresh : spawned s !! p = None) by apply fresh_child_None.
  split; [reflexivity |]. split; [exact Hfresh |]. split; [reflexivity |].
  split; [apply map_size_insert_None; exact Hfresh |].
  split; [reflexivity |].
  split; [apply map_size_insert_None; exact Hp |].
  split; [apply lookup_insert_eq |]. split; [apply lookup_insert_eq |].
  split; reflexivity.
Qed.

(** X3. [stopFrp] never throws on a live object and leaves the id untracked; a
    second [stopFrp] changes nothing; and on an id with no tracked process
    the first one changes nothing either: no signal, no message. *)
Theorem stop_idempotent (s : St) c v :
  heap s !! c = Some v ->
  let s1 := snd (stopFrp c s) in
  fst (stopFrp c s) = Normal tt
  /\ processes s1 !! id v = None
  /\ stopFrp c s1 = (Normal tt, s1)
  /\ (processes s !! id v = None -> s1 = s).
Proof.
  intros Hc s1. unfold s1.
  destruct (processes s !! id v) as [p|] eqn:Hp.
  - rewrite (stopFrp_tracked _ _ _ _ Hc Hp).
    split; [reflexivity |].
    assert (Hn : processes (stopped c v p s) !! id v = None)
      by (unfold stopped; tidy; apply lookup_delete_eq).
    split; [exact Hn |]. split; [| discriminate].
    apply (stopFrp_untracked _ c (with_isRunning false v)).
    + unfold stopped. tidy. apply lookup_insert_eq.
    + exact Hn.
  - rewrite (stopFrp_untracked _ _ _ Hc Hp).
    split; [reflexivity |]. split; [exact Hp |].
    split; [apply (stopFrp_untracked _ _ _ Hc Hp) | reflexivity].
Qed.

Lemma restartFrp_unfold c (s : St) :
  restartFrp c s = (stopFrp c ;;; startFrp c) s.
Proof. reflexivity. Qed.

(** X4. [restartFrp] on the tracked child [p] of an id, when the write and the
    spawn succeed, whatever events of children arrive while the write is
    awaited: [p] is sent a signal and a new child takes the entry of the id;
    the object ends marked running; the first message is the stopped status
    and the last is the running status.  When nothing arrives in between,
    these are the two messages; when the close of [p] arrives during the
    write, its listener sends the stopped status once more, which makes
    three. *)
Theorem restart_replaces_child
    (s : St) c v (p : ChildProcess) (arrivals : list (ChildProcess * ChildEvent)) :
  heap s !! c = Some v -> processes s !! id v = Some p ->
  is_Some (spawned s !! p) ->
  next_failure (fs_script s) = None -> next_failure (spawn_script s) = None ->
  let p' := fresh (dom (spawned s)) in
  let s' := snd (restartFrp_during arrivals c s) in
  fst (restartFrp_during arrivals c s) = Normal tt
  /\ p' <> p
  /\ processes s' !! id v = Some p'
  /\ signalled s' = {[p]} ∪ signalled s
  /\ listeners s' !! p' = Some c
  /\ heap s' !! c = Some (with_isRunning true v)
  /\ (exists more, events s' = events s ++ restart_messages v more)
  /\ (arrivals = [] -> events s' = events s ++ restart_messages v [])
  /\ (arrivals = [(p, Close None)] -> listeners s !! p = Some c ->
      events s'
      = events s ++ restart_messages v [StatusChanged (with_isRunning false v)]).
Proof.
  intros Hc Hp [a Ha] Hfs Hsp p' s'. unfold s', restartFrp_during.
  rewrite (bind_Normal _ _ _ _ _ (stopFrp_tracked _ _ _ _ Hc Hp)).
  set (s1 := stopped c v p s).
  assert (Hc1 : heap s1 !! c = Some (with_isRunning false v))
    by (unfold s1, stopped; tidy; apply lookup_insert_eq).
  rewrite (startFrp_during_succeeds s1 c (with_isRunning false v) arrivals Hc1)
    by (unfold s1, stopped; tidy; assumption).
  set (s2 := snd (deliver arrivals s1)).
  assert (Hsp2 : spawned s2 = spawned s).
  { unfold s2. rewrite (preserves_deliver spawned) by reflexivity. reflexivity. }
  assert (Hsg2 : signalled s2 = {[p]} ∪ signalled s).
  { unfold s2. rewrite (preserves_deliver signalled) by reflexivity. reflexivity. }
  destruct (deliver_drifted arrivals s1) as ([more Hmore] & _ & _). fold s2 in Hmore.
  assert (He1 : events s1 = events s ++ [StatusChanged (with_isRunning false v)])
    by reflexivity.
  unfold started. cbn [fst snd]. tidy. rewrite Hsp2. fold p'.
  split; [reflexivity |]. split.
  { intros Heq. unfold p' in Heq. rewrite <- Heq in Ha.
    assert (Hn : spawned s !! fresh (dom (spawned s)) = None)
      by (apply not_elem_of_dom, is_fresh).
    congruence. }
  split; [apply lookup_insert_eq |]. split; [exact Hsg2 |].
  split; [apply lookup_insert_eq |]. split; [apply lookup_insert_eq |].
  split.
  { exists more. rewrite Hmore, He1. unfold restart_messages.
    rewrite <- !app_assoc. reflexivity. }
  split.
  { intros ->. unfold s2, deliver, modify. cbn [snd foldl]. rewrite He1.
    unfold restart_messages. rewrite <- app_assoc. reflexivity. }
  intros -> Hl.
  assert (Hl1 : listeners s1 !! p = Some c) by exact Hl.
  unfold s2, deliver, modify. cbn [snd foldl fst].
  rewrite (dispatch_listener _ _ _ _ Hl1), (on_close_spec _ _ _ _ Hc1).
  unfold exited. cbn [snd]. tidy. rewrite He1. unfold restart_messages.
  rewrite <- !app_assoc. reflexivity.
Qed.


(** X6. The ['close'] listener removes the entry of the id of its object,
    whichever child is registered there.  After a restart, when the former
    child [p], which was sent the signal, closes (its code is [null]), the
    entry of the new child is removed and the object is marked stopped, with
    a stopped status message, although the new child was sent no signal and
    keeps its listeners. *)
Theorem close_of_former_child_untracks_new (s : St) c v (p : ChildProcess) :
  heap s !! c = Some v -> processes s !! id v = Some p ->
  listeners s !! p = Some c -> is_Some (spawned s !! p) ->
  next_failure (fs_script s) = None -> next_failure (spawn_script s) = None ->
  let p' := fresh (dom (spawned s)) in
  let s1 := snd (restartFrp c s) in
  let s2 := snd (dispatch p (Close None) s1) in
  processes s1 !! id v = Some p'
  /\ fst (dispatch p (Close None) s1) = Normal tt
  /\ processes s2 !! id v = None
  /\ heap s2 !! c = Some (with_isRunning false v)
  /\ last (events s2) = Some (StatusChanged (with_isRunning false v))
  /\ signalled s2 = {[p]} ∪ signalled s
  /\ spawned s2 !! p' = Some (id v)
  /\ listeners s2 !! p' = Some c.
Proof.
  intros Hc Hp Hl [a Ha] Hfs Hsp p' s1 s2.
  assert (Hne : p' <> p).
  { intros Heq. unfold p' in Heq. rewrite <- Heq, fresh_child_None in Ha.
    discriminate. }
  assert (Hs1 : s1 = started c (with_isRunning false v) (stopped c v p s)).
  { unfold s1. rewrite restartFrp_unfold.
    rewrite (bind_Normal _ _ _ _ _ (stopFrp_tracked _ _ _ _ Hc Hp)).
    rewrite (startFrp_succeeds (stopped c v p s) c (with_isRunning false v))
      by (unfold stopped; tidy; first [apply lookup_insert_eq | assumption]).
    reflexivity. }
  assert (Hl1 : listeners s1 !! p = Some c).
  { rewrite Hs1. unfold started, stopped. settle.
    rewrite lookup_insert_ne by exact Hne. exact Hl. }
  assert (Hc1 : heap s1 !! c = Some (with_isRunning true v)).
  { rewrite Hs1. unfold started, stopped. settle. apply lookup_insert_eq. }
  unfold s2. rewrite (dispatch_listener _ _ _ _ Hl1).
  rewrite (on_close_spec _ _ _ _ Hc1). unfold exited.
  rewrite Hs1. unfold started, stopped. settle.
  split; [apply lookup_insert_eq |]. split; [reflexivity |].
  split; [apply lookup_delete_eq |]. split; [apply lookup_insert_eq |].
  split; [apply last_snoc |]. split; [reflexivity |].
  split; apply lookup_insert_eq.
Qed.

(** X7. Output of a child that has listeners.  Data on its standard output
    changes nothing.  Data on its standard error adds exactly one error
    message, for the id of the configuration and carrying the data, and
    changes nothing else: the child stays in the process table and the
    object stays as it is. *)
Theorem child_output_keeps_running (s : St) p c v (data : string) :
  listeners s !! p = Some c -> heap s !! c = Some v ->
  dispatch p (StdoutData data) s = (Normal tt, s)
  /\ dispatch p (StderrData data) s
     = (Normal tt, set_events (events s ++ [FrpError (id v) data]) s)
  /\ processes (snd (dispatch p (StderrData data) s)) = processes s
  /\ heap (snd (dispatch p (StderrData data) s)) = heap s.
Proof.
  intros Hl Hc. rewrite !(dispatch_listener _ _ _ _ Hl).
  unfold on_stdout, on_stderr.
  rewrite !(bind_Normal _ _ _ _ _ (deref_Some _ _ _ Hc)).
  repeat split.
Qed.

(** X8. A child that closes with code 0, or with no code (it was ended by a
    signal): the entry of its id is removed, the object is marked stopped
    and exactly one message is sent, the stopped status; there is no error
    message. *)
Theorem close_without_error (s : St) p c v (code : option Z) :
  listeners s !! p = Some c -> heap s !! c = Some v ->
  code = None \/ code = Some 0%Z ->
  let s' := snd (dispatch p (Close code) s) in
  fst (dispatch p (Close code) s) = Normal tt
  /\ processes s' = delete (id v) (processes s)
  /\ heap s' = <[c := with_isRunning false v]> (heap s)
  /\ events s' = (events s ++ [StatusChanged (with_isRunning false v)])
  /\ signalled s' = signalled s.
Proof.
  intros Hl Hc Hcode s'. unfold s'.
  rewrite (dispatch_listener _ _ _ _ Hl), (on_close_spec _ _ _ _ Hc).
  destruct Hcode as [-> | ->]; unfold exited; settle; repeat split.
Qed.

(** X9. [cleanup] empties the process table and sends a signal to every child
    that was in it.  It does not touch the objects (a configuration marked
    running stays marked running), sends no message, and a second [cleanup]
    changes nothing. *)
Theorem cleanup_signals_all (s : St) :
  let s' := snd (cleanup s) in
  fst (cleanup s) = Normal tt
  /\ processes s' = ∅
  /\ (forall cid p, processes s !! cid = Some p -> p ∈ signalled s')
  /\ (forall p, p ∈ signalled s -> p ∈ signalled s')
  /\ heap s' = heap s /\ configs s' = configs s /\ events s' = events s
  /\ cleanup s' = (Normal tt, s').
Proof.
  intros s'. unfold s', cleanup, modify. settle.
  split; [reflexivity |]. split; [reflexivity |]. split.
  { intros cid p Hp. apply elem_of_union. left.
    apply elem_of_map_img. eauto. }
  split; [intros p Hp; apply elem_of_union; right; exact Hp |].
  split; [reflexivity |]. split; [reflexivity |]. split; [reflexivity |].
  rewrite map_img_empty_L, (left_id_L ∅ (∪)). reflexivity.
Qed.

(** ** Start-up *)

Lemma initBinary_spec (s : St) :
  initBinary s =
    match next_failure (fs_script s) with
    | Some _ =>
        (Throw (mkError ("找不到 frpc 二进制文件或无法访问：" +:+ binPath s)),
         set_fs_script (tail (fs_script s)) s)
    | None =>
        match next_failure (tail (fs_script s)) with
        | Some _ =>
            (Throw (mkError ("找不到 frpc 二进制文件或无法访问：" +:+ binPath s)),
             set_fs_script (tail (tail (fs_script s))) s)
        | None => (Normal tt, set_fs_script (tail (tail (fs_script s))) s)
        end
    end.
Proof.
  unfold initBinary, try_catch.
  destruct (next_failure (fs_script s)) as [m|] eqn:H1.
  { rewrite (bind_Throw _ _ _ _ _ (fs_call_fails _ _ H1)). reflexivity. }
  rewrite (bind_Normal _ _ _ _ _ (fs_call_succeeds _ H1)).
  unfold fs_call. tidy.
  destruct (next_failure (tail (fs_script s))); reflexivity.
Qed.

(** X10. [init] when the binary is not usable ([access] or [chmod] is rejected,
    after a successful [mkdir]): it throws the error that names the path of
    the binary, whatever the cause was, before any configuration is loaded:
    the list, the objects, the process table, the children and the messages
    are as before. *)
Theorem init_binary_unavailable (s : St) (msg : string) :
  next_failure (fs_script s) = None ->
  next_failure (tail (fs_script s)) = Some msg
  \/ (next_failure (tail (fs_script s)) = None
      /\ next_failure (tail (tail (fs_script s))) = Some msg) ->
  let s' := snd (init s) in
  fst (init s)
  = Throw (mkError ("找不到 frpc 二进制文件或无法访问：" +:+ binPath s))
  /\ configs s' = configs s /\ heap s' = heap s
  /\ processes s' = processes s /\ spawned s' = spawned s
  /\ events s' = events s.
Proof.
  intros Hmk Hbin s'. unfold s', init.
  rewrite (bind_Normal _ _ _ _ _ (fs_call_succeeds _ Hmk)).
  set (s1 := set_fs_script (tail (fs_script s)) s).
  assert (Hb : exists s2,
             initBinary s1
             = (Throw (mkError ("找不到 frpc 二进制文件或无法访问：" +:+ binPath s)),
                set_fs_script s2 s)).
  { rewrite initBinary_spec. unfold s1. tidy.
    destruct Hbin as [H | [H1 H2]].
    - rewrite H. eauto.
    - rewrite H1, H2. eauto. }
  destruct Hb as [s2 Hb]. rewrite (bind_Throw _ _ _ _ _ Hb). settle.
  repeat split.
Qed.

(** X11. [init] when the directory can be made, the binary is usable and
    [configs.json] is absent, is not JSON or holds an array of configuration
    records: it returns normally, whatever the read of the file and the
    automatic starts do; its result is the auto-start loop run on the loaded
    registry.  When [mkdir] is rejected it throws that error at once. *)
Theorem init_fails_only_before_load (s : St) :
  (next_failure (fs_script s) = None ->
   next_failure (tail (fs_script s)) = None ->
   next_failure (tail (tail (fs_script s))) = None ->
   loadable (configs_json s) ->
   let s3 := set_fs_script (tail (tail (tail (fs_script s)))) s in
   fst (init s) = Normal tt
   /\ snd (init s) = snd (startAutoStartConfigs (snd (initConfigs s3))))
  /\ (forall msg,
        next_failure (fs_script s) = Some msg ->
        init s = (Throw (mkError msg), set_fs_script (tail (fs_script s)) s)).
Proof.
  split.
  - intros H1 H2 H3 Hl s3. unfold init.
    rewrite (bind_Normal _ _ _ _ _ (fs_call_succeeds _ H1)).
    set (s1 := set_fs_script (tail (fs_script s)) s).
    assert (Hb : initBinary s1 = (Normal tt, s3)).
    { rewrite initBinary_spec. unfold s1. tidy. rewrite H2, H3. reflexivity. }
    rewrite (bind_Normal _ _ _ _ _ Hb).
    assert (Hl3 : loadable (configs_json s3)) by exact Hl.
    destruct (initConfigs_spec s3 Hl3) as (cs & h' & Hrun & _).
    assert (Hi : initConfigs s3 = (Normal tt, snd (initConfigs s3)))
      by (rewrite Hrun; reflexivity).
    rewrite (bind_Normal _ _ _ _ _ Hi).
    destruct (autostart_loop_returns s3 Hl3) as [Hn _].
    split; [exact Hn | reflexivity].
  - intros msg H. unfold init.
    apply bind_Throw. apply fs_call_fails. exact H.
Qed.

(** ** Loading *)

(** X12. [initConfigs] when the file cannot be read (the read is rejected or the
    file is missing) or is not JSON: it returns normally and the registry is
    empty, whatever it held; the objects are untouched. *)
Theorem load_failure_gives_empty_registry (s : St) :
  (exists msg, next_failure (fs_script s) = Some msg)
  \/ configs_json s = None
  \/ (exists text, configs_json s = Some (Garbage text)) ->
  initConfigs s
  = (Normal tt, set_configs [] (set_fs_script (tail (fs_script s)) s)).
Proof.
  intros H. unfold initConfigs, try_catch.
  destruct (next_failure (fs_script s)) as [m|] eqn:Hfs.
  { rewrite (bind_Throw _ _ _ _ _ (fs_call_fails _ _ Hfs)). reflexivity. }
  rewrite (bind_Normal _ _ _ _ _ (fs_call_succeeds _ Hfs)).
  unfold bind, gets. tidy.
  destruct H as [[msg H] | [H | [text H]]]; [discriminate | |];
    rewrite H; reflexivity.
Qed.

Lemma omap_lookup_Forall2 (h : gmap loc Config) cs rs :
  Forall2 (fun c v => h !! c = Some v) cs rs ->
  omap (fun c => h !! c) cs = rs.
Proof.
  induction 1 as [|c v cs rs Hc _ IH]; simpl; [reflexivity |].
  rewrite Hc. simpl. f_equal. exact IH.
Qed.

(** [initConfigs] when the file is read and holds an array of records: the
    registry holds these records as [JSON.parse] gives them back, in the
    order of the file. *)
Lemma initConfigs_reads_back (s : St) rs :
  next_failure (fs_script s) = None -> configs_json s = Some (JsonText rs) ->
  fst (initConfigs s) = Normal tt
  /\ snapshot (snd (initConfigs s)) = reloaded <$> rs
  /\ length (configs (snd (initConfigs s))) = length rs.
Proof.
  intros Hfs Hj. unfold initConfigs, try_catch.
  rewrite (bind_Normal _ _ _ _ _ (fs_call_succeeds _ Hfs)).
  set (s0 := set_fs_script (tail (fs_script s)) s).
  rewrite (bind_Normal _ _ s0 s0 (Some (JsonText rs)))
    by (unfold gets, s0; tidy; rewrite Hj; reflexivity).
  destruct (new_objects_spec (reloaded <$> rs) s0) as (cs & h' & Hrun & _ & Hall & _).
  rewrite (bind_Normal _ _ _ _ _ Hrun). unfold modify, snapshot. settle.
  split; [reflexivity |]. split.
  - apply omap_lookup_Forall2. exact Hall.
  - rewrite (Forall2_length _ _ _ Hall). apply length_fmap.
Qed.

(** X13. Round trip through the file.  After a save whose document parses and
    whose write succeeds, a new manager that reads the file successfully
    has the records the saving manager had in memory, in the same order, as
    [JSON.parse] gives them back: the same [id], [name], [config],
    [isRunning] and [autoStart], and the JSON image of [parsedConfig]. *)
Theorem save_then_cold_load (s : St) c v p :
  heap s !! c = Some v -> TOML_parse (config v) = inl p ->
  next_failure (fs_script s) = None ->
  forall os_arch assets fs spawns,
    next_failure fs = None ->
    let loaded := snapshot (cold_load os_arch assets fs spawns (snd (save c s))) in
    loaded = as_reloaded (snapshot (snd (save c s)))
    /\ id <$> loaded = id <$> snapshot (snd (save c s))
    /\ config <$> loaded = config <$> snapshot (snd (save c s))
    /\ isRunning <$> loaded = isRunning <$> snapshot (snd (save c s))
    /\ autoStart <$> loaded = autoStart <$> snapshot (snd (save c s)).
Proof.
  intros Hc Hp Hfs os_arch assets fs spawns Hfs' loaded.
  assert (H : loaded = as_reloaded (snapshot (snd (save c s)))).
  { unfold loaded. rewrite (saveConfig_parsed _ _ _ _ Hc Hp), Hfs. cbn [snd].
    set (s2 := set_fs_script _ _).
    unfold cold_load, at_restart.
    apply initConfigs_reads_back; [exact Hfs' | reflexivity]. }
  split; [exact H |]. rewrite H. unfold as_reloaded.
  rewrite <- !list_fmap_compose. repeat split.
Qed.

(** ** What the methods leave alone *)

Lemma preserves_fs_call {X} (f : St -> X) :
  (forall x s, f (set_fs_script x s) = f s) -> preserves f (@fs_call Parsed).
Proof.
  intros H s. unfold fs_call.
  destruct (next_failure (fs_script s)); apply H.
Qed.

Lemma preserves_spawn {X} (f : St -> X) arg :
  (forall x s, f (set_spawn_script x s) = f s) ->
  (forall x s, f (set_spawned x s) = f s) ->
  preserves f (@spawn Parsed arg).
Proof.
  intros H1 H2 s. unfold spawn.
  destruct (next_failure (spawn_script s)); cbn [snd].
  - apply H1.
  - rewrite H2. apply H1.
Qed.

Lemma preserves_new_object {X} (f : St -> X) v :
  (forall x s, f (set_heap x s) = f s) -> preserves f (@new_object Parsed v).
Proof. intros H s. apply H. Qed.

Lemma preserves_new_objects {X} (f : St -> X) vs :
  (forall x s, f (set_heap x s) = f s) -> preserves f (@new_objects Parsed vs).
Proof.
  intros H. induction vs as [|v vs IH]; simpl.
  - apply preserves_ret.
  - apply preserves_bind; [apply preserves_new_object, H | intros].
    apply preserves_bind; [exact IH | intros]. apply preserves_ret.
Qed.

(** A step towards [preserves f m], for a component [f] that none of the
    setters met on the way writes. *)
Ltac keep_step :=
  first
    [ apply preserves_fs_call; intros; reflexivity
    | apply preserves_writeFile; intros; reflexivity
    | apply preserves_spawn; intros; reflexivity
    | apply preserves_new_object; intros; reflexivity
    | apply preserves_new_objects; intros; reflexivity
    | arch_step ].

Lemma startFrp_keeps_file c : preserves configs_json (@startFrp Parsed c).
Proof.
  unfold startFrp, startFrp_during, deliver, store, notifyStatusChange.
  repeat keep_step.
Qed.

Lemma stopFrp_keeps_file c : preserves configs_json (@stopFrp Parsed c).
Proof. unfold stopFrp, store, notifyStatusChange. repeat keep_step. Qed.

(** X14. Only the save and the delete of a configuration write [configs.json]:
    the start-up, every start, stop and restart (from the renderer or from
    the tray), the clean-up and every event of a child leave the file as it
    is. *)
Theorem only_save_and_delete_write_file (op : Op Parsed) (s : St) :
  writes_registry op = false ->
  configs_json (snd (call op s)) = configs_json s.
Proof.
  intros Hop. revert s. change (preserves configs_json (call op)).
  destruct op; try discriminate; simpl;
    unfold init, initBinary, initConfigs, startAutoStartConfigs, autoStartConfig,
      tray_toggle, tray_restart, restartFrp, restartFrp_during, cleanup, dispatch,
      on_stdout, on_stderr, on_close, on_error, store, notifyStatusChange,
      notifyError;
    repeat first
      [ apply startFrp_keeps_file
      | apply (startFrp_keeps_file _ : preserves configs_json (startFrp_during [] _))
      | apply stopFrp_keeps_file | keep_step ].
Qed.

(** [saveConfig] keeps every component of the state other than the scripts
    of the outcomes of file-system calls, the objects, the list and
    [configs.json]. *)
Lemma preserves_save {X} (f : St -> X) c :
  (forall x s, f (set_fs_script x s) = f s) ->
  (forall x s, f (set_torn_script x s) = f s) ->
  (forall x s, f (set_heap x s) = f s) ->
  (forall x s, f (set_configs x s) = f s) ->
  (forall x s, f (set_configs_json x s) = f s) ->
  preserves f (save c).
Proof.
  intros H1 H0 H2 H3 H4. unfold saveConfig, store.
  repeat first
    [ apply preserves_write_configs; assumption
    | apply preserves_modify; intros; first [apply H2 | apply H3 | apply H4]
    | arch_step ].
Qed.

(** X15. [saveConfig] is silent and stays away from the processes: whether it
    succeeds, is rejected or fails at the write, it sends no message, and the
    process table, the children, the signals, the listeners and the TOML
    files are as before. *)
Theorem save_is_silent (s : St) c :
  let s' := snd (saveConfig TOML_parse c s) in
  events s' = events s /\ processes s' = processes s
  /\ spawned s' = spawned s /\ signalled s' = signalled s
  /\ listeners s' = listeners s /\ toml_files s' = toml_files s.
Proof.
  intros s'. unfold s'.
  split; [apply (preserves_save events); intros; reflexivity |].
  split; [apply (preserves_save processes); intros; reflexivity |].
  split; [apply (preserves_save spawned); intros; reflexivity |].
  split; [apply (preserves_save signalled); intros; reflexivity |].
  split; [apply (preserves_save listeners); intros; reflexivity |].
  apply (preserves_save toml_files); intros; reflexivity.
Qed.

(** ** One id at a time *)

Lemma find_skip {A} (q : A -> bool) l1 x l2 :
  q x = false -> List.find q (l1 ++ x :: l2) = List.find q (l1 ++ l2).
Proof.
  intros Hx. induction l1 as [|y l1 IH]; simpl.
  - rewrite Hx. reflexivity.
  - rewrite IH. reflexivity.
Qed.

Lemma filter_skip {A} (q : A -> bool) l1 x l2 :
  q x = false -> List.filter q (l1 ++ x :: l2) = List.filter q (l1 ++ l2).
Proof.
  intros Hx. rewrite !List.filter_app. simpl. rewrite Hx. reflexivity.
Qed.

(** The update-or-append driven by the test [p] is invisible to a test [q]
    that fails on the new element and on every element passing [p]. *)
Lemma upsert_other {A} (p q : A -> bool) l c :
  q c = false -> (forall x, p x = true -> q x = false) ->
  let l' := match findIndex p l with
            | Some i => <[i := c]> l
            | None => l ++ [c]
            end in
  List.find q l' = List.find q l /\ List.filter q l' = List.filter q l.
Proof.
  intros Hc Hpq. destruct (findIndex p l) as [i|] eqn:Hi; cbv zeta.
  - destruct (findIndex_Some _ _ _ Hi) as (y & Hy & Hpy & _).
    rewrite (insert_take_drop_at _ _ _ _ Hy).
    rewrite <- (take_drop_middle l i y Hy) at 3 6.
    rewrite !find_skip, !filter_skip by auto. split; reflexivity.
  - rewrite find_skip, filter_skip by exact Hc. rewrite app_nil_r.
    split; reflexivity.
Qed.

Lemma filter_keeps {A} (q r : A -> bool) l :
  (forall x, q x = true -> r x = true) ->
  List.find q (List.filter r l) = List.find q l
  /\ List.filter q (List.filter r l) = List.filter q l.
Proof.
  intros H. induction l as [|y l [IH1 IH2]]; simpl; [auto |].
  destruct (r y) eqn:Hr; simpl.
  - rewrite IH1, IH2. auto.
  - destruct (q y) eqn:Hq; [rewrite (H y Hq) in Hr; discriminate | auto].
Qed.

Lemma filter_filter_length {A} (q r : A -> bool) l :
  length (List.filter q (List.filter r l)) <= length (List.filter q l).
Proof.
  induction l as [|y l IH]; simpl; [lia |].
  destruct (r y); simpl; destruct (q y); simpl; lia.
Qed.

Lemma has_id_exclusive (s : St) cid cid' c :
  cid <> cid' -> has_id s cid c = true -> has_id s cid' c = false.
Proof.
  unfold has_id. intros Hne. destruct (heap s !! c) as [v|]; [| discriminate].
  intros H. apply bool_decide_eq_true in H. apply bool_decide_eq_false.
  congruence.
Qed.

(** The list and the ids after a [deleteConfig]. *)
Lemma deleteConfig_memory (s : St) cid :
  (configs (snd (deleteConfig cid s)) = without cid s
   \/ snd (deleteConfig cid s) = s
      /\ List.find (has_id s cid) (configs s) = None)
  /\ (forall cid' c', has_id (snd (deleteConfig cid s)) cid' c' = has_id s cid' c')
  /\ (forall c' v', heap s !! c' = Some v' -> id v' <> cid ->
         heap (snd (deleteConfig cid s)) !! c' = Some v').
Proof.
  destruct (List.find (has_id s cid) (configs s)) as [c|] eqn:Hf.
  2:{ assert (Hd : deleteConfig cid s = (Normal tt, s))
        by (unfold deleteConfig, deleteConfig_during, bind, getConfig, gets;
            rewrite Hf; reflexivity).
      rewrite Hd. cbn [snd]. auto. }
  assert (Hg : getConfig cid s = (Normal (Some c), s))
    by (unfold getConfig, gets; rewrite Hf; reflexivity).
  destruct (getConfig_found _ _ _ Hg) as [Hin (v & Hc & Hid)].
  destruct (deleteConfig_found _ _ _ Hg) as [Hd _]. rewrite Hd.
  set (t1 := snd (stopFrp c s)).
  assert (H1 : configs t1 = configs s
               /\ (heap t1 = heap s
                   \/ heap t1 = <[c := with_isRunning false v]> (heap s))).
  { unfold t1. destruct (processes s !! id v) as [q|] eqn:Hq.
    - rewrite (stopFrp_tracked _ _ _ _ Hc Hq). unfold stopped. settle. auto.
    - rewrite (stopFrp_untracked _ _ _ Hc Hq). auto. }
  destruct H1 as [Hcs1 Hh1].
  assert (Hhas : forall cid' c', has_id t1 cid' c' = has_id s cid' c').
  { intros cid' c'. destruct Hh1 as [Hh | Hh].
    - apply has_id_heap. exact Hh.
    - unfold has_id. rewrite Hh. destruct (decide (c = c')) as [<- | Hne].
      + rewrite lookup_insert_eq, Hc. reflexivity.
      + rewrite lookup_insert_ne by exact Hne. reflexivity. }
  set (t2 := set_configs (without cid t1) t1).
  change ((modify (fun s1 => set_configs (without cid s1) s1) ;;; write_configs) t1)
    with (write_configs t2).
  split; [left | split].
  - rewrite write_configs_configs. unfold t2. tidy.
    apply without_has_id; [exact Hcs1 | intros; apply Hhas].
  - intros cid' c'. rewrite <- Hhas. apply has_id_heap.
    rewrite write_configs_heap. reflexivity.
  - intros c' v' Hc' Hne. rewrite write_configs_heap. unfold t2. tidy.
    destruct Hh1 as [-> | ->]; [exact Hc' |].
    rewrite lookup_insert_ne; [exact Hc' |]. intros <-. congruence.
Qed.

Lemma save_other_id (s : St) c v cid' :
  heap s !! c = Some v -> id v <> cid' ->
  fst (getConfig cid' (snd (save c s))) = fst (getConfig cid' s)
  /\ count_id (snd (save c s)) cid' = count_id s cid'.
Proof.
  intros Hc Hne. destruct (TOML_parse (config v)) as [p | msg] eqn:Hp.
  2:{ rewrite (saveConfig_malformed _ _ _ _ Hc Hp). auto. }
  destruct (saveConfig_memory _ _ _ _ Hc Hp) as [Hcs Hh].
  set (s' := snd (save c s)) in *.
  assert (H' : forall cid c', has_id s' cid c' = has_id s cid c').
  { intros cid c'. unfold has_id. rewrite Hh.
    destruct (decide (c = c')) as [<- | Hn].
    - rewrite lookup_insert_eq, Hc. reflexivity.
    - rewrite lookup_insert_ne by exact Hn. reflexivity. }
  assert (Hqc : has_id s cid' c = false).
  { unfold has_id. rewrite Hc. apply bool_decide_eq_false. exact Hne. }
  assert (Hup : upserted c (id v) (after_parse c v p s)
                = match findIndex (has_id s (id v)) (configs s) with
                  | Some i => <[i := c]> (configs s)
                  | None => configs s ++ [c]
                  end).
  { unfold upserted, after_parse. tidy.
    assert (He : forall l : list loc,
               findIndex (has_id (set_heap (<[c:=with_parsedConfig p v]> (heap s)) s)
                            (id v)) l
               = findIndex (has_id s (id v)) l).
    { induction l as [|y l IH]; simpl; [reflexivity |].
      rewrite (has_id_insert s c v) by (auto; reflexivity). rewrite IH.
      reflexivity. }
    rewrite He. reflexivity. }
  destruct (upsert_other (has_id s (id v)) (has_id s cid') (configs s) c Hqc)
    as [Hfind Hfilter].
  { intros x Hx. apply (has_id_exclusive s (id v) cid' x Hne Hx). }
  split.
  - unfold getConfig, gets. cbn [fst]. f_equal.
    rewrite (find_ext _ _ _ (H' cid')), Hcs, Hup. exact Hfind.
  - unfold count_id. rewrite (List.filter_ext _ _ (H' cid')), Hcs, Hup, Hfilter.
    reflexivity.
Qed.

(** X16. Saving or deleting one id leaves the others alone.  For an id other
    than the one saved or deleted, [getConfig] returns the same object as
    before and the number of records with that id is the same; a save
    changes no object other than the saved one, and a delete changes no
    object of another id. *)
Theorem other_ids_untouched (s : St) (cid' : string) :
  (forall c v,
     heap s !! c = Some v -> id v <> cid' ->
     fst (getConfig cid' (snd (save c s))) = fst (getConfig cid' s)
     /\ count_id (snd (save c s)) cid' = count_id s cid'
     /\ (forall c', c' <> c -> heap (snd (save c s)) !! c' = heap s !! c'))
  /\ (forall cid,
       cid <> cid' ->
       fst (getConfig cid' (snd (deleteConfig cid s))) = fst (getConfig cid' s)
       /\ count_id (snd (deleteConfig cid s)) cid' = count_id s cid'
       /\ (forall c' v', heap s !! c' = Some v' -> id v' = cid' ->
              heap (snd (deleteConfig cid s)) !! c' = Some v')).
Proof.
  split.
  - intros c v Hc Hne.
    destruct (save_other_id s c v cid' Hc Hne) as [H1 H2].
    split; [exact H1 |]. split; [exact H2 |].
    intros c' Hc'. destruct (TOML_parse (config v)) as [p | msg] eqn:Hp.
    + destruct (saveConfig_memory _ _ _ _ Hc Hp) as [_ Hh].
      rewrite Hh. apply lookup_insert_ne. congruence.
    + rewrite (saveConfig_malformed _ _ _ _ Hc Hp). reflexivity.
  - intros cid Hne.
    destruct (deleteConfig_memory s cid) as (Hcs & Hhas & Hheap).
    assert (Hkeep : forall x, has_id s cid' x = true ->
                              negb (has_id s cid x) = true).
    { intros x Hx. destruct (has_id s cid x) eqn:Hy; [| reflexivity].
      rewrite (has_id_exclusive s cid cid' x Hne Hy) in Hx. discriminate. }
    destruct (filter_keeps (has_id s cid') (fun c => negb (has_id s cid c))
                (configs s) Hkeep) as [Hfind Hfilter].
    split; [| split].
    + unfold getConfig, gets. cbn [fst]. f_equal.
      rewrite (find_ext _ _ _ (Hhas cid')).
      destruct Hcs as [-> | [-> _]]; [exact Hfind | reflexivity].
    + unfold count_id. rewrite (List.filter_ext _ _ (Hhas cid')).
      destruct Hcs as [-> | [-> _]]; [unfold without; rewrite Hfilter |];
        reflexivity.
    + intros c' v' Hc' Hid. apply Hheap; [exact Hc' | congruence].
Qed.

(** X17. Saves and deletes keep the ids of the registry unique. *)
Theorem unique_ids_preserved (s : St) :
  unique_ids s ->
  (forall c v, heap s !! c = Some v -> unique_ids (snd (save c s)))
  /\ (forall cid, unique_ids (snd (deleteConfig cid s))).
Proof.
  intros Hu. split.
  - intros c v Hc cid. destruct (decide (id v = cid)) as [<- | Hne].
    + destruct (TOML_parse (config v)) as [p | msg] eqn:Hp.
      * destruct (save_once s c v p Hc Hp) as (_ & _ & Hcnt & _).
        rewrite Hcnt. specialize (Hu (id v)). lia.
      * rewrite (saveConfig_malformed _ _ _ _ Hc Hp). apply Hu.
    + destruct (save_other_id s c v cid Hc Hne) as [_ ->]. apply Hu.
  - intros cid cid'.
    destruct (deleteConfig_memory s cid) as (Hcs & Hhas & _).
    unfold count_id. rewrite (List.filter_ext _ _ (Hhas cid')).
    destruct Hcs as [-> | [-> _]]; [| apply Hu].
    unfold without.
    etrans; [apply filter_filter_length | apply Hu].
Qed.

(** ** The callers in [main.ts] *)

(** The three outcomes of [startFrp] on a live object. *)
Lemma startFrp_cases (s : St) c v :
  heap s !! c = Some v ->
  (exists msg s1,
     next_failure (fs_script s) = Some msg
     /\ startFrp c s = (Throw (mkError msg), s1)
     /\ events s1 = events s /\ processes s1 = processes s
     /\ spawned s1 = spawned s /\ heap s1 = heap s /\ configs s1 = configs s)
  \/ (exists msg,
        next_failure (fs_script s) = None
        /\ next_failure (spawn_script s) = Some msg
        /\ startFrp c s
           = (Throw (mkError msg),
              set_spawn_script (tail (spawn_script s))
                (set_toml_files (<[id v := config v]> (toml_files s))
                   (set_fs_script (tail (fs_script s)) s))))
  \/ (next_failure (fs_script s) = None
      /\ next_failure (spawn_script s) = None
      /\ startFrp c s = (Normal tt, started c v s)).
Proof.
  intros Hc. destruct (next_failure (fs_script s)) as [m|] eqn:Hfs.
  { left. exists m. eexists. split; [reflexivity |].
    split; [apply (startFrp_write_fails _ _ _ _ Hc Hfs) |].
    repeat split; (rewrite after_failed_write_keeps by reflexivity; reflexivity). }
  destruct (next_failure (spawn_script s)) as [m|] eqn:Hsp.
  { right. left. exists m. split; [reflexivity |]. split; [reflexivity |].
    apply (startFrp_spawn_throws _ _ _ _ Hc Hfs Hsp). }
  right. right. split; [reflexivity |]. split; [reflexivity |].
  apply (startFrp_succeeds _ _ _ Hc Hfs Hsp).
Qed.

(** X18. The click on the start/stop item of the tray menu never throws, and it
    chooses by the [isRunning] mark of the object, not by the process table.
    On an object marked running it does what [stopFrp] does; so when the id
    has no tracked process (a mark that is out of date) the click changes
    nothing at all.  On an object not marked running whose start fails at
    the write of the TOML file, the failure is sent as an error message for
    the id and nothing else changes. *)
Theorem tray_toggle_follows_mark (s : St) c v :
  heap s !! c = Some v ->
  fst (tray_toggle c s) = Normal tt
  /\ (isRunning v = true -> snd (tray_toggle c s) = snd (stopFrp c s))
  /\ (isRunning v = true -> processes s !! id v = None ->
      tray_toggle c s = (Normal tt, s))
  /\ (isRunning v = false -> forall msg,
      next_failure (fs_script s) = Some msg ->
      events (snd (tray_toggle c s)) = (events s ++ [FrpError (id v) msg])
      /\ processes (snd (tray_toggle c s)) = processes s
      /\ spawned (snd (tray_toggle c s)) = spawned s
      /\ heap (snd (tray_toggle c s)) = heap s).
Proof.
  intros Hc. unfold tray_toggle.
  rewrite (bind_Normal _ _ _ _ _ (deref_Some _ _ _ Hc)). unfold try_catch.
  destruct (isRunning v) eqn:Hr.
  - assert (Hstop : exists s1, stopFrp c s = (Normal tt, s1)
                               /\ (processes s !! id v = None -> s1 = s)).
    { destruct (processes s !! id v) as [p|] eqn:Hp.
      - rewrite (stopFrp_tracked _ _ _ _ Hc Hp). eexists. split; [reflexivity |].
        discriminate.
      - rewrite (stopFrp_untracked _ _ _ Hc Hp). eauto. }
    destruct Hstop as (s1 & Hs & Hsame). rewrite Hs. cbn [fst snd].
    split; [reflexivity |]. split; [reflexivity |].
    split; [| discriminate].
    intros _ Hp. rewrite (Hsame Hp). reflexivity.
  - destruct (startFrp_cases s c v Hc)
      as [(m & s1 & Hfs & Hs & He1 & Hp1 & Hsp1 & Hh1 & _)
         | [(m & Hfs & Hsp & Hs) | (Hfs & Hsp & Hs)]];
      rewrite Hs; unfold notifyError, modify; settle;
      (split; [reflexivity |]); (split; [discriminate |]);
      (split; [discriminate |]); intros _ msg Hmsg.
    + assert (msg = m) by congruence. subst m.
      rewrite He1, Hp1, Hsp1, Hh1. repeat split.
    + congruence.
    + congruence.
Qed.

Lemma omap_ext_in {A B} (f g : A -> option B) (l : list A) :
  (forall x, x ∈ l -> f x = g x) -> omap f l = omap g l.
Proof.
  induction l as [|x l IH]; intros H; [reflexivity |].
  simpl. rewrite (H x) by apply list_elem_of_here.
  destruct (g x); [f_equal |];
    apply IH; intros; apply H, list_elem_of_further; assumption.
Qed.

Lemma snapshot_ext (s s' : St) :
  configs s' = configs s ->
  (forall c, c ∈ configs s -> heap s' !! c = heap s !! c) ->
  snapshot s' = snapshot s.
Proof.
  unfold snapshot. intros -> H. apply omap_ext_in. exact H.
Qed.

(** X19. A start that arrives over IPC works on a copy of the record.  Whatever
    its outcome, the list and the records of the registry are as before, so
    the listed record of the id is not marked running by it; and when the
    write and the spawn succeed the call returns normally with the new child
    in the process table under the id. *)
Theorem ipc_start_leaves_listed_records (s : St) (v : Config) :
  (forall c, c ∈ configs s -> is_Some (heap s !! c)) ->
  let s' := snd (call (OpStart v) s) in
  configs s' = configs s
  /\ snapshot s' = snapshot s
  /\ (next_failure (fs_script s) = None ->
      next_failure (spawn_script s) = None ->
      fst (call (OpStart v) s) = Normal tt
      /\ processes s' !! id v = Some (fresh (dom (spawned s)))).
Proof.
  intros Hlive s'.
  set (c0 := fresh (dom (heap s))).
  set (s0 := set_heap (<[c0 := v]> (heap s)) s).
  assert (Hcall : call (OpStart v) s = startFrp c0 s0) by reflexivity.
  assert (Hc0 : heap s0 !! c0 = Some v) by apply lookup_insert_eq.
  assert (Hold : forall c, c ∈ configs s -> c <> c0).
  { intros c Hin ->. destruct (Hlive _ Hin) as [a Ha].
    unfold c0 in Ha. rewrite fresh_loc_None in Ha. discriminate. }
  assert (Hframe : configs s' = configs s
                   /\ forall c, c ∈ configs s -> heap s' !! c = heap s !! c).
  { unfold s'. rewrite Hcall.
    destruct (startFrp_cases s0 c0 v Hc0)
      as [(m & s1 & _ & Hs & _ & _ & _ & Hh1 & Hc1)
         | [(m & _ & _ & Hs) | (_ & _ & Hs)]];
      rewrite Hs; unfold started; settle; rewrite ?Hh1, ?Hc1; unfold s0; tidy;
      (split; [reflexivity |]);
      intros c Hin; specialize (Hold c Hin);
      rewrite ?lookup_insert_ne by congruence; reflexivity. }
  destruct Hframe as [Hcs Hh].
  split; [exact Hcs |]. split; [apply snapshot_ext; assumption |].
  intros Hfs Hsp. unfold s'. rewrite Hcall.
  rewrite (startFrp_succeeds s0 c0 v Hc0) by (unfold s0; tidy; assumption).
  unfold started, s0. settle. split; [reflexivity | apply lookup_insert_eq].
Qed.

(** X20. The handler of ['get-architecture'] answers ['x86'] only when there is
    no manager: for a manager constructed on a host whose [os.arch()] is
    [os_arch], after any sequence of calls, it answers what
    [detectArchitecture] gave, ['arm64'] or ['x64'], never ['x86']. *)
Theorem get_architecture_handler_fallback
    (os_arch assets : string) json tomls fs spawns torn (ops : list (Op Parsed)) :
  let s := calls ops (new_FrpManager os_arch assets json tomls fs spawns torn) in
  get_architecture_handler (Some s) = detectArchitecture os_arch
  /\ get_architecture_handler (Some s) <> "x86"
  /\ get_architecture_handler (@None St) = "x86".
Proof.
  intros s. unfold get_architecture_handler, s.
  rewrite run_architecture. cbn [architecture new_FrpManager].
  unfold detectArchitecture.
  destruct (bool_decide (os_arch = "arm64"));
    rewrite bool_decide_eq_false_2 by discriminate;
    (split; [reflexivity |]); split; first [discriminate | reflexivity].
Qed.

Lemma two_elements_length {A} (l : list A) x y :
  x ∈ l -> y ∈ l -> x <> y -> 2 <= length l.
Proof.
  intros Hx Hy Hne. destruct l as [|a [|b l]]; simpl; [| | lia].
  - apply elem_of_nil in Hx. contradiction.
  - apply list_elem_of_singleton in Hx, Hy. congruence.
Qed.

(** In a registry with unique ids, two listed objects with the same id are
    the same object. *)
Lemma unique_ids_same_object (s : St) c c' v v' :
  unique_ids s -> c ∈ configs s -> c' ∈ configs s ->
  heap s !! c = Some v -> heap s !! c' = Some v' -> id v' = id v -> c' = c.
Proof.
  intros Hu Hin Hin' Hc Hc' Hid.
  destruct (decide (c' = c)) as [| Hne]; [assumption | exfalso].
  specialize (Hu (id v)). unfold count_id in Hu.
  assert (H2 : 2 <= length (List.filter (has_id s (id v)) (configs s))).
  { apply (two_elements_length _ c' c); [| | exact Hne];
      apply list_elem_of_In, List.filter_In;
      (split; [apply list_elem_of_In; assumption |]);
      unfold has_id; rewrite ?Hc, ?Hc'; apply bool_decide_eq_true; congruence. }
  lia.
Qed.

Lemma on_status_changed_snapshot (s : St) c v b :
  unique_ids s -> (forall c', c' ∈ configs s -> is_Some (heap s !! c')) ->
  c ∈ configs s -> heap s !! c = Some v ->
  on_status_changed (with_isRunning b v) (snapshot s)
  = snapshot (set_heap (<[c := with_isRunning b v]> (heap s)) s).
Proof.
  intros Hu Hlive Hin Hc.
  assert (Hsame : forall c' v', c' ∈ configs s -> heap s !! c' = Some v' ->
                                id v' = id v -> c' = c).
  { intros c' v' Hin' Hc' Hid.
    apply (unique_ids_same_object s c c' v v'); assumption. }
  unfold snapshot, on_status_changed. tidy.
  revert Hlive Hsame. generalize (configs s) as l. clear Hin Hu.
  induction l as [|x l IH]; intros Hlive Hsame; [reflexivity |].
  destruct (Hlive x) as [vx Hx]; [apply list_elem_of_here |].
  simpl. rewrite Hx.
  assert (IH' : List.map
                  (fun r => if bool_decide (id r = id (with_isRunning b v))
                            then with_isRunning b v else r)
                  (omap (fun c0 => heap s !! c0) l)
                = omap (fun c0 => <[c := with_isRunning b v]> (heap s) !! c0) l).
  { apply IH; intros; [apply Hlive | eapply Hsame; [| eassumption | assumption]];
      apply list_elem_of_further; assumption. }
  destruct (decide (c = x)) as [<- | Hne].
  - rewrite lookup_insert_eq. simpl.
    assert (vx = v) by congruence. subst vx.
    rewrite bool_decide_eq_true_2 by reflexivity. f_equal. exact IH'.
  - rewrite lookup_insert_ne by exact Hne. rewrite Hx. simpl.
    rewrite bool_decide_eq_false_2.
    + f_equal. exact IH'.
    + simpl. intros Hid. apply Hne. symmetry.
      apply (Hsame x vx); [apply list_elem_of_here | exact Hx | exact Hid].
Qed.

(** X21. The renderer's list follows the registry.  When the ids are unique and
    the renderer's list is the registry's records, a stop or a successful
    start of a listed object (as the tray menu and the auto-start loop do)
    sends a status message such that the renderer's update of its list gives
    the registry's records after the call. *)
Theorem renderer_list_follows_listed_object (s : St) c v :
  unique_ids s -> (forall c', c' ∈ configs s -> is_Some (heap s !! c')) ->
  c ∈ configs s -> heap s !! c = Some v ->
  (forall p, processes s !! id v = Some p ->
     last (events (snd (stopFrp c s)))
     = Some (StatusChanged (with_isRunning false v))
     /\ on_status_changed (with_isRunning false v) (snapshot s)
        = snapshot (snd (stopFrp c s)))
  /\ (next_failure (fs_script s) = None ->
      next_failure (spawn_script s) = None ->
      last (events (snd (startFrp c s)))
      = Some (StatusChanged (with_isRunning true v))
      /\ on_status_changed (with_isRunning true v) (snapshot s)
         = snapshot (snd (startFrp c s))).
Proof.
  intros Hu Hlive Hin Hc. split.
  - intros p Hp. rewrite (stopFrp_tracked _ _ _ _ Hc Hp).
    unfold stopped. settle. split; [apply last_snoc |].
    rewrite (on_status_changed_snapshot s c v false Hu Hlive Hin Hc).
    reflexivity.
  - intros Hfs Hsp. rewrite (startFrp_succeeds _ _ _ Hc Hfs Hsp).
    unfold started. settle. split; [apply last_snoc |].
    rewrite (on_status_changed_snapshot s c v true Hu Hlive Hin Hc).
    reflexivity.
Qed.


(** ** Saving a configuration that is running *)

(** X23. A save does not touch the process of the id.  When a configuration with
    a tracked child is saved again from another object (the copy the dialog
    sends), the child stays in the process table and its listeners keep the
    former object; [getConfig] now returns the new object, marked as it was
    sent.  When the child later closes, it is the former object that is
    marked stopped and sent in the status message; the listed object is not
    changed by it. *)
Theorem save_leaves_child_on_former_object
    (s : St) c0 c1 v0 v1 p1 (p : ChildProcess) :
  heap s !! c1 = Some v1 -> TOML_parse (config v1) = inl p1 ->
  heap s !! c0 = Some v0 -> c0 <> c1 -> listeners s !! p = Some c0 ->
  let s' := snd (save c1 s) in
  let s'' := snd (dispatch p (Close None) s') in
  processes s' = processes s
  /\ listeners s' !! p = Some c0
  /\ getConfig (id v1) s' = (Normal (Some c1), s')
  /\ heap s' !! c1 = Some (with_parsedConfig p1 v1)
  /\ heap s'' !! c1 = Some (with_parsedConfig p1 v1)
  /\ heap s'' !! c0 = Some (with_isRunning false v0)
  /\ last (events s'') = Some (StatusChanged (with_isRunning false v0)).
Proof.
  intros Hc1 Hp1 Hc0 Hne Hl s' s''.
  destruct (save_once s c1 v1 p1 Hc1 Hp1) as (Hg & Hh1 & _). fold s' in Hg, Hh1.
  destruct (saveConfig_memory _ _ _ _ Hc1 Hp1) as [_ Hh]. fold s' in Hh.
  assert (Hpr : processes s' = processes s)
    by (apply (preserves_save processes); intros; reflexivity).
  assert (Hls : listeners s' = listeners s)
    by (apply (preserves_save listeners); intros; reflexivity).
  assert (Hl' : listeners s' !! p = Some c0) by (rewrite Hls; exact Hl).
  assert (Hc0' : heap s' !! c0 = Some v0).
  { rewrite Hh, lookup_insert_ne by congruence. exact Hc0. }
  split; [exact Hpr |]. split; [exact Hl' |]. split; [exact Hg |].
  split; [exact Hh1 |].
  unfold s''. rewrite (dispatch_listener _ _ _ _ Hl'), (on_close_spec _ _ _ _ Hc0').
  unfold exited. settle.
  split; [rewrite lookup_insert_ne by exact Hne; exact Hh1 |].
  split; [apply lookup_insert_eq | apply last_snoc].
Qed.

(** ** The order of the list *)

Lemma omap_id_insert (h : gmap loc Config) c v v' (l : list loc) :
  h !! c = Some v -> id v' = id v ->
  id <$> omap (fun x => <[c := v']> h !! x) l = id <$> omap (fun x => h !! x) l.
Proof.
  intros Hc Hid. induction l as [|x l IH]; [reflexivity |].
  simpl. destruct (decide (c = x)) as [<- | Hne].
  - rewrite lookup_insert_eq, Hc. simpl. rewrite Hid. f_equal. exact IH.
  - rewrite lookup_insert_ne by exact Hne.
    destruct (h !! x); simpl; [f_equal |]; exact IH.
Qed.

(** X24. A save keeps the order of the ids of the registry: an id that is already
    there stays at its place, a new id goes to the end. *)
Theorem save_keeps_id_order (s : St) c v p :
  heap s !! c = Some v -> TOML_parse (config v) = inl p ->
  id <$> snapshot (snd (save c s))
  = if decide (count_id s (id v) = 0)
    then (id <$> snapshot s) ++ [id v]
    else id <$> snapshot s.
Proof.
  intros Hc Hp.
  destruct (saveConfig_memory _ _ _ _ Hc Hp) as [Hcs Hh].
  unfold snapshot. rewrite Hcs, Hh.
  assert (He : forall l : list loc,
             findIndex (has_id (after_parse c v p s) (id v)) l
             = findIndex (has_id s (id v)) l).
  { induction l as [|y l IH]; simpl; [reflexivity |].
    unfold after_parse at 1. rewrite (has_id_insert s c v) by (auto; reflexivity).
    rewrite IH. reflexivity. }
  unfold upserted. rewrite He. unfold after_parse. tidy.
  unfold count_id.
  destruct (findIndex (has_id s (id v)) (configs s)) as [i|] eqn:Hi.
  - pose proof (findIndex_Some_filter _ _ _ Hi) as Hlen.
    rewrite decide_False by lia.
    destruct (findIndex_Some _ _ _ Hi) as (y & Hy & Hpy & _).
    rewrite (omap_id_insert (heap s) c v) by (auto; reflexivity).
    rewrite (insert_take_drop_at _ _ _ _ Hy).
    rewrite <- (take_drop_middle (configs s) i y Hy) at 3.
    rewrite !omap_app, !fmap_app. f_equal.
    unfold has_id in Hpy. simpl. rewrite Hc.
    destruct (heap s !! y) as [vy|]; [| discriminate].
    apply bool_decide_eq_true in Hpy. simpl. rewrite Hpy. reflexivity.
  - rewrite (findIndex_None _ _ Hi). rewrite decide_True by reflexivity.
    rewrite omap_app, fmap_app. f_equal.
    + apply (omap_id_insert (heap s) c v); [exact Hc | reflexivity].
    + simpl. rewrite lookup_insert_eq. reflexivity.
Qed.

End Properties.

(** * The statements on sample data *)

Lemma saveConfig_rejects_malformed_witness :
  sample_parse (config cfgBad)
    = inr "Unexpected character, expected key/value pair"
  /\ fst (exec sample_parse (OpSave cfgBad) registry_A)
     = Throw (InvalidConfig "Unexpected character, expected key/value pair")
  /\ configs (snd (exec sample_parse (OpSave cfgBad) registry_A))
     = configs registry_A
  /\ configs_json (snd (exec sample_parse (OpSave cfgBad) registry_A))
     = configs_json registry_A.
Proof.
  split; [reflexivity |].
  destruct (saveConfig_rejects_malformed sample_parse registry_A cfgBad
              "Unexpected character, expected key/value pair" eq_refl)
    as (_ & H1 & H2 & H3 & _).
  auto.
Defined.

Lemma save_then_get_witness :
  let s := registry_A_edit_received in
  let s' := snd (saveConfig sample_parse 1 s) in
  heap s !! 1 = Some cfgA_edited
  /\ sample_parse (config cfgA_edited) = inl [("serverPort", "7100")]
  /\ count_id s "1" = 1
  /\ getConfig "1" s' = (Normal (Some 1), s')
  /\ (exists v', heap s' !! 1 = Some v' /\ config v' = "serverPort = 7100"
                  /\ id v' = "1")
  /\ count_id s' "1" = 1
  /\ length (configs s') = length (configs s).
Proof.
  intros s s'.
  assert (Hc : heap s !! 1 = Some cfgA_edited) by (vm_compute; reflexivity).
  assert (Hn : count_id s "1" = 1) by (vm_compute; reflexivity).
  split; [exact Hc |]. split; [reflexivity |]. split; [exact Hn |].
  destruct (save_then_get sample_parse s 1 cfgA_edited
              [("serverPort", "7100")] Hc eq_refl)
    as (H1 & H2 & _ & H4 & _).
  split; [exact H1 |]. split; [exact H2 |].
  split; [apply H4; simpl; rewrite Hn; lia |].
  vm_compute. reflexivity.
Defined.

(** C4, the claim as stated fails: the disk is full, the save of a new
    configuration throws, and the configuration is in the in-memory list all
    the same; the delete of a saved configuration throws, and the
    configuration is gone from the in-memory list all the same.  The
    rejected write of the delete has emptied [configs.json]. *)
Lemma failed_write_changes_memory :
  (let s := set_fs_script disk_full fresh_manager in
   let r := exec sample_parse (OpSave cfgA) s in
   is_thrown (fst r) = true /\ configs s = [] /\ configs (snd r) = [0]
   /\ snapshot (snd r) <> snapshot s)
  /\ (let s := set_torn_script emptied (set_fs_script disk_full registry_A) in
      let r := deleteConfig "1" s in
      is_thrown (fst r) = true /\ configs s = [0] /\ configs (snd r) = []
      /\ snapshot (snd r) <> snapshot s
      /\ configs_json s = Some (JsonText [cfgA_saved])
      /\ configs_json (snd r) = Some (Garbage "")).
Proof. vm_compute. repeat split; discriminate. Qed.

Lemma write_failure_surfaced_witness :
  let s := set_torn_script emptied (set_fs_script disk_full registry_A) in
  next_failure (fs_script s) = Some "ENOSPC: no space left on device"
  /\ fst (deleteConfig "1" s)
     = Throw (mkError "ENOSPC: no space left on device")
  /\ configs (snd (deleteConfig "1" s)) = without "1" s
  /\ fst (saveConfig sample_parse 0 s)
     = Throw (InvalidConfig "ENOSPC: no space left on device")
  /\ 0 ∈ configs (snd (saveConfig sample_parse 0 s)).
Proof.
  intros s. split; [reflexivity |].
  destruct (write_failure_surfaced sample_parse s
              "ENOSPC: no space left on device" eq_refl) as [Hs Hd].
  destruct (Hd "1" 0) as (H1 & H2 & _); [vm_compute; reflexivity |].
  destruct (Hs 0 (with_parsedConfig [("serverPort", "7000")] cfgA)
              [("serverPort", "7000")]) as (H3 & _ & H5 & _);
    [vm_compute; reflexivity | reflexivity |].
  auto 10.
Defined.

(** C1, the claim as stated fails: [cfgA] has the tracked child 0, a second
    start does not throw, and the entry of the id is now the child 1. *)
Lemma second_start_not_rejected :
  let r := startFrp 0 running_A in
  processes running_A !! "1" = Some 0
  /\ fst r = Normal tt
  /\ processes (snd r) !! "1" = Some 1
  /\ size (spawned (snd r)) = 2
  /\ ~ (is_thrown (fst r) = true /\ processes (snd r) = processes running_A).
Proof.
  vm_compute. repeat split. intros [H _]. discriminate.
Qed.

Lemma second_start_replaces_tracked_witness :
  let v := with_isRunning true (with_parsedConfig [("serverPort", "7000")] cfgA) in
  heap running_A !! 0 = Some v
  /\ processes running_A !! id v = Some 0
  /\ fst (startFrp 0 running_A) = Normal tt
  /\ processes (snd (startFrp 0 running_A)) !! id v
     = Some (fresh (dom (spawned running_A)))
  /\ signalled (snd (startFrp 0 running_A)) = signalled running_A.
Proof.
  intros v.
  assert (Hc : heap running_A !! 0 = Some v) by (vm_compute; reflexivity).
  assert (Hp : processes running_A !! id v = Some 0) by (vm_compute; reflexivity).
  destruct (second_start_replaces_tracked running_A 0 v 0 Hc Hp)
    as (H1 & _ & H3 & _ & _ & H6 & _);
    [vm_compute; eauto | vm_compute; reflexivity | vm_compute; reflexivity |].
  auto.
Defined.

(** C5: the configuration with id [1] and name [web] has the tracked child 0,
    which exits with code 1.  The entry leaves the process table, the object
    is marked stopped, the status message is sent and then the error message,
    and the [configId] of the error message is [web], the name, not [1]. *)
Lemma close_error_tagged_with_name :
  let s' := snd (dispatch 0 (Close (Some 1%Z)) running_A) in
  id cfgA = "1" /\ name cfgA = "web"
  /\ processes running_A !! "1" = Some 0
  /\ processes s' !! "1" = None
  /\ isRunning <$> heap s' !! 0 = Some false
  /\ drop (length (events running_A)) (events s')
     = [StatusChanged
          (with_isRunning false (with_parsedConfig [("serverPort", "7000")] cfgA));
        FrpError "web" "进程退出，退出码: 1"].
Proof. vm_compute. repeat split. Qed.

(** C6, the claim as stated fails: the launch of the child of [cfgA] fails
    and the failure arrives as its ['error'] event.  The start call has
    returned normally, with the child registered and the object marked
    running; the entry is removed only when the event is handled. *)
Lemma launch_failure_not_returned :
  let r := startFrp 0 registry_A in
  let s2 := snd (dispatch 0 (ProcessError "spawn frpc ENOENT") (snd r)) in
  fst r = Normal tt /\ is_thrown (fst r) = false
  /\ processes (snd r) !! "1" = Some 0
  /\ isRunning <$> heap (snd r) !! 0 = Some true
  /\ processes s2 !! "1" = None
  /\ last (events s2) = Some (FrpError "1" "spawn frpc ENOENT").
Proof. vm_compute. repeat split. Qed.

Lemma launch_failure_handling_witness :
  let v := with_parsedConfig [("serverPort", "7000")] cfgA in
  heap registry_A !! 0 = Some v
  /\ next_failure (fs_script registry_A) = None
  /\ fst (startFrp 0 registry_A) = Normal tt
  /\ (let s := set_spawn_script [Some "spawn EPERM"] registry_A in
      fst (startFrp 0 s) = Throw (mkError "spawn EPERM")
      /\ events (snd (startFrp 0 s)) = events s).
Proof.
  intros v.
  assert (Hc : heap registry_A !! 0 = Some v) by (vm_compute; reflexivity).
  split; [exact Hc |]. split; [reflexivity |]. split.
  - destruct (launch_failure_handling registry_A 0 v Hc eq_refl) as [H _].
    destruct (H eq_refl "spawn frpc ENOENT") as (H1 & _). exact H1.
  - intros s.
    destruct (launch_failure_handling s 0 v) as [_ H];
      [vm_compute; reflexivity | reflexivity |].
    destruct (H "spawn EPERM" eq_refl) as (H1 & _ & _ & H4). auto.
Defined.


(** C2, the claim as stated fails: [cfgA] is running when [cfgB] is saved,
    so the file holds [cfgA] with [isRunning] set; a new manager loads it
    marked running although its process table is empty, and its auto-start
    loop skips it.  A save of a record that is itself marked running writes
    the mark as well. *)
Lemma running_mark_persisted :
  (isRunning <$> persisted saved_while_running) = [true; false]
  /\ ~ none_running (persisted saved_while_running)
  /\ (let b := cold_load "arm64" "/Applications/FrpManager.app" [] []
                 saved_while_running in
      configs b = [0; 1]
      /\ isRunning <$> heap b !! 0 = Some true
      /\ processes b = ∅
      /\ spawned (snd (startAutoStartConfigs b)) = ∅)
  /\ (isRunning <$>
        persisted (run sample_parse [OpSave (with_isRunning true cfgB)] fresh_manager))
     = [true].
Proof.
  split; [vm_compute; reflexivity |]. split.
  { intros H. apply Forall_cons in H as [H _]. vm_compute in H. discriminate. }
  split; [| vm_compute; reflexivity].
  vm_compute. repeat split.
Qed.

Lemma persisted_running_marks_witness :
  let ops := [OpSave cfgA; OpSave cfgB; OpDelete "1"] in
  let s' := run sample_parse ops fresh_manager in
  let t := snd (exec sample_parse (OpSave (with_isRunning true cfgB)) fresh_manager) in
  Forall store_op ops
  /\ none_running (snapshot fresh_manager)
  /\ none_running (persisted fresh_manager)
  /\ loadable (configs_json fresh_manager)
  /\ configs_json t = Some (JsonText (snapshot t))
  /\ none_running (persisted s')
  /\ (forall c,
        c ∈ configs (cold_load "x64" "/app" [] [] s') ->
        exists v, heap (cold_load "x64" "/app" [] [] s') !! c = Some v
                  /\ isRunning v = false).
Proof.
  intros ops s' t.
  assert (Hops : Forall store_op ops)
    by (repeat constructor).
  assert (Hmem : none_running (snapshot fresh_manager)) by constructor.
  assert (Hdisk : none_running (persisted fresh_manager)) by constructor.
  assert (Hl : loadable (configs_json fresh_manager)) by (intros text; discriminate).
  split; [exact Hops |]. split; [exact Hmem |]. split; [exact Hdisk |].
  split; [exact Hl |].
  destruct (persisted_running_marks sample_parse fresh_manager ops) as [HA HB].
  split.
  { destruct (HA (OpSave (with_isRunning true cfgB)) eq_refl) as [H | (cid & H & _)];
      [vm_compute; reflexivity | exact H | discriminate]. }
  destruct (HB Hops Hmem Hdisk Hl) as (_ & H3 & H4).
  split; [exact H3 |]. intros c. apply (H4 "x64" "/app" [] []).
Defined.



(** A start that fails does not stop the loop: the write of the TOML file of
    [cfgA] is refused, an error message for its id is sent, and [cfgC], next
    in the list, is started. *)
Lemma autostart_failure_does_not_abort :
  let s1 := snd (initConfigs (at_boot [cfgA; cfgC] [None; Some "EACCES"])) in
  let s' := snd (startAutoStartConfigs s1) in
  fst (startAutoStartConfigs s1) = Normal tt
  /\ events s' = [FrpError "1" "自动启动失败: EACCES";
                  StatusChanged (with_isRunning true cfgC)]
  /\ heap s' !! 0 = Some cfgA
  /\ processes s' !! "1" = None
  /\ processes s' !! "4" = Some 0.
Proof. vm_compute. repeat split. Qed.

(** * The further properties on sample data *)

Lemma count_id_le_length {Parsed} (s : State Parsed) cid :
  count_id s cid <= length (configs s).
Proof. unfold count_id. apply List.filter_length_le. Qed.

Lemma running_A_unique : unique_ids running_A.
Proof. intros cid. apply (count_id_le_length running_A cid). Qed.

Lemma running_A_live c : c ∈ configs running_A -> is_Some (heap running_A !! c).
Proof.
  intros H. vm_compute in H. apply list_elem_of_singleton in H. subst c.
  vm_compute. eauto.
Qed.

Lemma start_write_failure_spawns_nothing_witness :
  let s := set_torn_script emptied (set_fs_script disk_full registry_A) in
  heap s !! 0 = Some cfgA_saved
  /\ next_failure (fs_script s) = Some "ENOSPC: no space left on device"
  /\ fst (startFrp 0 s) = Throw (mkError "ENOSPC: no space left on device")
  /\ spawned (snd (startFrp 0 s)) = spawned s
  /\ processes (snd (startFrp 0 s)) = processes s.
Proof.
  intros s.
  assert (Hc : heap s !! 0 = Some cfgA_saved) by (vm_compute; reflexivity).
  assert (Hf : next_failure (fs_script s) = Some "ENOSPC: no space left on device")
    by (vm_compute; reflexivity).
  destruct (start_write_failure_spawns_nothing s 0 cfgA_saved _ Hc Hf)
    as (H1 & H2 & _ & _ & H5 & _).
  auto 10.
Defined.

Lemma start_untracked_registers_one_witness :
  heap registry_A !! 0 = Some cfgA_saved
  /\ processes registry_A !! id cfgA_saved = None
  /\ fst (startFrp 0 registry_A) = Normal tt
  /\ size (processes (snd (startFrp 0 registry_A))) = S (size (processes registry_A))
  /\ toml_files (snd (startFrp 0 registry_A)) !! id cfgA_saved
     = Some (config cfgA_saved).
Proof.
  assert (Hc : heap registry_A !! 0 = Some cfgA_saved) by (vm_compute; reflexivity).
  assert (Hp : processes registry_A !! id cfgA_saved = None)
    by (vm_compute; reflexivity).
  destruct (start_untracked_registers_one registry_A 0 cfgA_saved Hc Hp)
    as (H1 & _ & _ & _ & _ & H6 & _ & H8 & _);
    [vm_compute; reflexivity | vm_compute; reflexivity |].
  auto 10.
Defined.

Lemma stop_idempotent_witness :
  let s1 := snd (stopFrp 0 running_A) in
  heap running_A !! 0 = Some cfgA_running
  /\ fst (stopFrp 0 running_A) = Normal tt
  /\ processes s1 !! id cfgA_running = None
  /\ stopFrp 0 s1 = (Normal tt, s1).
Proof.
  intros s1.
  assert (Hc : heap running_A !! 0 = Some cfgA_running) by (vm_compute; reflexivity).
  destruct (stop_idempotent running_A 0 cfgA_running Hc) as (H1 & H2 & H3 & _).
  auto 10.
Defined.

Lemma restart_replaces_child_witness :
  let s' := snd (restartFrp_during [(0, Close None)] 0 running_A) in
  heap running_A !! 0 = Some cfgA_running
  /\ processes running_A !! id cfgA_running = Some 0
  /\ listeners running_A !! 0 = Some 0
  /\ fst (restartFrp_during [(0, Close None)] 0 running_A) = Normal tt
  /\ processes s' !! id cfgA_running = Some (fresh (dom (spawned running_A)))
  /\ signalled s' = {[0]} ∪ signalled running_A
  /\ events s'
     = events running_A
         ++ [StatusChanged (with_isRunning false cfgA_running);
             StatusChanged (with_isRunning false cfgA_running);
             StatusChanged (with_isRunning true cfgA_running)]
  /\ events (snd (restartFrp 0 running_A))
     = events running_A
         ++ [StatusChanged (with_isRunning false cfgA_running);
             StatusChanged (with_isRunning true cfgA_running)].
Proof.
  intros s'.
  assert (Hc : heap running_A !! 0 = Some cfgA_running) by (vm_compute; reflexivity).
  assert (Hp : processes running_A !! id cfgA_running = Some 0)
    by (vm_compute; reflexivity).
  assert (Hl : listeners running_A !! 0 = Some 0) by (vm_compute; reflexivity).
  assert (Hs : is_Some (spawned running_A !! 0)) by (vm_compute; eauto).
  assert (Hf : next_failure (fs_script running_A) = None) by (vm_compute; reflexivity).
  assert (Hn : next_failure (spawn_script running_A) = None)
    by (vm_compute; reflexivity).
  destruct (restart_replaces_child running_A 0 cfgA_running 0 [(0, Close None)]
              Hc Hp Hs Hf Hn)
    as (H1 & _ & H3 & H4 & _ & _ & _ & _ & H9).
  destruct (restart_replaces_child running_A 0 cfgA_running 0 [] Hc Hp Hs Hf Hn)
    as (_ & _ & _ & _ & _ & _ & _ & H8 & _).
  split; [exact Hc |]. split; [exact Hp |]. split; [exact Hl |].
  split; [exact H1 |]. split; [exact H3 |]. split; [exact H4 |].
  split; [exact (H9 eq_refl Hl) | exact (H8 eq_refl)].
Defined.


Lemma close_of_former_child_untracks_new_witness :
  let s1 := snd (restartFrp 0 running_A) in
  let s2 := snd (dispatch 0 (Close None) s1) in
  listeners running_A !! 0 = Some 0
  /\ processes s1 !! id cfgA_running = Some (fresh (dom (spawned running_A)))
  /\ processes s2 !! id cfgA_running = None
  /\ heap s2 !! 0 = Some (with_isRunning false cfgA_running)
  /\ signalled s2 = {[0]} ∪ signalled running_A.
Proof.
  intros s1 s2.
  assert (Hl : listeners running_A !! 0 = Some 0) by (vm_compute; reflexivity).
  split; [exact Hl |].
  destruct (close_of_former_child_untracks_new running_A 0 cfgA_running 0)
    as (H1 & _ & H3 & H4 & _ & H6 & _);
    [vm_compute; reflexivity | vm_compute; reflexivity | exact Hl
    | vm_compute; eauto | vm_compute; reflexivity | vm_compute; reflexivity |].
  auto 10.
Defined.

Lemma child_output_keeps_running_witness :
  listeners running_A !! 0 = Some 0
  /\ heap running_A !! 0 = Some cfgA_running
  /\ dispatch 0 (StdoutData "start proxy success") running_A
     = (Normal tt, running_A)
  /\ processes (snd (dispatch 0 (StderrData "login failed") running_A))
     = processes running_A.
Proof.
  assert (Hl : listeners running_A !! 0 = Some 0) by (vm_compute; reflexivity).
  assert (Hc : heap running_A !! 0 = Some cfgA_running) by (vm_compute; reflexivity).
  split; [exact Hl |]. split; [exact Hc |].
  destruct (child_output_keeps_running running_A 0 0 cfgA_running
              "start proxy success" Hl Hc) as (H1 & _).
  destruct (child_output_keeps_running running_A 0 0 cfgA_running
              "login failed" Hl Hc) as (_ & _ & H3 & _).
  auto 10.
Defined.

Lemma close_without_error_witness :
  let s' := snd (dispatch 0 (Close (Some 0%Z)) running_A) in
  listeners running_A !! 0 = Some 0
  /\ heap running_A !! 0 = Some cfgA_running
  /\ events s'
     = (events running_A ++ [StatusChanged (with_isRunning false cfgA_running)])
  /\ processes s' = delete (id cfgA_running) (processes running_A).
Proof.
  intros s'.
  assert (Hl : listeners running_A !! 0 = Some 0) by (vm_compute; reflexivity).
  assert (Hc : heap running_A !! 0 = Some cfgA_running) by (vm_compute; reflexivity).
  split; [exact Hl |]. split; [exact Hc |].
  destruct (close_without_error running_A 0 0 cfgA_running (Some 0%Z) Hl Hc)
    as (_ & H2 & _ & H4 & _); [right; reflexivity |].
  auto 10.
Defined.

Lemma cleanup_signals_all_witness :
  processes running_A !! "1" = Some 0
  /\ 0 ∈ signalled (snd (cleanup running_A))
  /\ processes (snd (cleanup running_A)) = ∅
  /\ heap (snd (cleanup running_A)) !! 0 = Some cfgA_running.
Proof.
  assert (Hp : processes running_A !! "1" = Some 0) by (vm_compute; reflexivity).
  split; [exact Hp |].
  destruct (cleanup_signals_all running_A) as (_ & H2 & H3 & _ & H5 & _).
  split; [exact (H3 "1" 0 Hp) |]. split; [exact H2 |].
  rewrite H5. vm_compute. reflexivity.
Defined.

Lemma init_binary_unavailable_witness :
  let s := at_boot [cfgA; cfgB] [None; Some "ENOENT"] in
  next_failure (fs_script s) = None
  /\ next_failure (tail (fs_script s)) = Some "ENOENT"
  /\ fst (init s)
     = Throw (mkError ("找不到 frpc 二进制文件或无法访问：" +:+ binPath s))
  /\ configs (snd (init s)) = configs s
  /\ spawned (snd (init s)) = spawned s.
Proof.
  intros s.
  destruct (init_binary_unavailable s "ENOENT" eq_refl (or_introl eq_refl))
    as (H1 & H2 & _ & _ & H5 & _).
  split; [reflexivity |]. split; [reflexivity |]. auto 10.
Defined.

Lemma init_fails_only_before_load_witness :
  loadable
    (configs_json
       (at_boot [cfgA; cfgB] [None; None; None; Some "EIO"; Some "EACCES"]))
  /\ fst (init (at_boot [cfgA; cfgB] [None; None; None; Some "EIO"; Some "EACCES"]))
     = Normal tt
  /\ init (at_boot [cfgA] [Some "EROFS"])
     = (Throw (mkError "EROFS"),
        set_fs_script (tail (fs_script (at_boot [cfgA] [Some "EROFS"])))
          (at_boot [cfgA] [Some "EROFS"])).
Proof.
  assert (Hl : loadable
                 (configs_json
                    (at_boot [cfgA; cfgB] [None; None; None; Some "EIO"; Some "EACCES"])))
    by (intros text; discriminate).
  split; [exact Hl |]. split.
  - destruct (init_fails_only_before_load
                (at_boot [cfgA; cfgB] [None; None; None; Some "EIO"; Some "EACCES"]))
      as [H _].
    destruct (H eq_refl eq_refl eq_refl Hl) as [H1 _]. exact H1.
  - destruct (init_fails_only_before_load (at_boot [cfgA] [Some "EROFS"]))
      as [_ H].
    apply (H "EROFS"). reflexivity.
Defined.

Lemma load_failure_gives_empty_registry_witness :
  let s := set_configs_json (Some (Garbage "{ not json")) running_A in
  configs s = [0]
  /\ initConfigs s = (Normal tt, set_configs [] (set_fs_script (tail (fs_script s)) s)).
Proof.
  intros s. split; [vm_compute; reflexivity |].
  apply load_failure_gives_empty_registry.
  right. right. exists "{ not json". reflexivity.
Defined.

Lemma save_then_cold_load_witness :
  let s' := snd (saveConfig sample_parse 1 registry_A_edit_received) in
  heap registry_A_edit_received !! 1 = Some cfgA_edited
  /\ sample_parse (config cfgA_edited) = inl [("serverPort", "7100")]
  /\ next_failure (fs_script registry_A_edit_received) = None
  /\ snapshot (cold_load "x64" "/app" [] [] s') = as_reloaded (snapshot s')
  /\ config <$> snapshot (cold_load "x64" "/app" [] [] s') = config <$> snapshot s'.
Proof.
  intros s'.
  assert (Hc : heap registry_A_edit_received !! 1 = Some cfgA_edited)
    by (vm_compute; reflexivity).
  assert (Hf : next_failure (fs_script registry_A_edit_received) = None)
    by (vm_compute; reflexivity).
  split; [exact Hc |]. split; [reflexivity |]. split; [exact Hf |].
  destruct (save_then_cold_load sample_parse registry_A_edit_received 1 cfgA_edited
              [("serverPort", "7100")] Hc eq_refl Hf "x64" "/app" [] [] eq_refl)
    as (H1 & _ & H3 & _).
  split; [exact H1 | exact H3].
Defined.

Lemma only_save_and_delete_write_file_witness :
  writes_registry (OpTrayToggle 0 : Op (list (string * string))) = false
  /\ configs_json (snd (exec sample_parse (OpTrayToggle 0) registry_A))
     = configs_json registry_A
  /\ configs_json (snd (exec sample_parse OpInit running_A))
     = configs_json running_A.
Proof.
  split; [reflexivity |]. split.
  - apply (only_save_and_delete_write_file sample_parse (OpTrayToggle 0)). reflexivity.
  - apply (only_save_and_delete_write_file sample_parse OpInit). reflexivity.
Defined.

Lemma other_ids_untouched_witness :
  heap registry_A_edit_received !! 1 = Some cfgA_edited
  /\ fst (getConfig "2" (snd (saveConfig sample_parse 1 registry_A_edit_received)))
     = fst (getConfig "2" registry_A_edit_received)
  /\ fst (getConfig "2" (snd (deleteConfig "1" saved_while_running)))
     = fst (getConfig "2" saved_while_running)
  /\ count_id (snd (deleteConfig "1" saved_while_running)) "2"
     = count_id saved_while_running "2".
Proof.
  assert (Hc : heap registry_A_edit_received !! 1 = Some cfgA_edited)
    by (vm_compute; reflexivity).
  split; [exact Hc |].
  destruct (other_ids_untouched sample_parse registry_A_edit_received "2")
    as [Hs _].
  destruct (Hs 1 cfgA_edited Hc) as (H1 & _); [discriminate |].
  destruct (other_ids_untouched sample_parse saved_while_running "2") as [_ Hd].
  destruct (Hd "1") as (H2 & H3 & _); [discriminate |].
  auto 10.
Defined.

Lemma unique_ids_preserved_witness :
  unique_ids running_A
  /\ unique_ids (snd (deleteConfig "1" running_A))
  /\ unique_ids (snd (saveConfig sample_parse 0 running_A)).
Proof.
  destruct (unique_ids_preserved sample_parse running_A running_A_unique)
    as [Hs Hd].
  split; [exact running_A_unique |]. split; [apply Hd |].
  apply (Hs 0 cfgA_running). vm_compute. reflexivity.
Defined.

Lemma tray_toggle_follows_mark_witness :
  let s := cold_load "arm64" "/Applications/FrpManager.app" [] [] saved_while_running in
  heap s !! 0 = Some cfgA_running
  /\ processes s !! id cfgA_running = None
  /\ tray_toggle 0 s = (Normal tt, s).
Proof.
  intros s.
  assert (Hc : heap s !! 0 = Some cfgA_running) by (vm_compute; reflexivity).
  assert (Hp : processes s !! id cfgA_running = None) by (vm_compute; reflexivity).
  split; [exact Hc |]. split; [exact Hp |].
  destruct (tray_toggle_follows_mark s 0 cfgA_running Hc) as (_ & _ & H3 & _).
  apply H3; [reflexivity | exact Hp].
Defined.

Lemma ipc_start_leaves_listed_records_witness :
  let s' := snd (exec sample_parse (OpStart cfgA_saved) registry_A) in
  snapshot registry_A = [cfgA_saved]
  /\ snapshot s' = snapshot registry_A
  /\ processes s' !! id cfgA_saved = Some (fresh (dom (spawned registry_A))).
Proof.
  intros s'. split; [vm_compute; reflexivity |].
  destruct (ipc_start_leaves_listed_records sample_parse registry_A cfgA_saved)
    as (_ & H2 & H3).
  { intros c H. vm_compute in H. apply list_elem_of_singleton in H. subst c.
    vm_compute. eauto. }
  split; [exact H2 |].
  destruct H3 as [_ H]; [vm_compute; reflexivity | vm_compute; reflexivity |].
  exact H.
Defined.

Lemma renderer_list_follows_listed_object_witness :
  0 ∈ configs running_A
  /\ heap running_A !! 0 = Some cfgA_running
  /\ processes running_A !! id cfgA_running = Some 0
  /\ on_status_changed (with_isRunning false cfgA_running) (snapshot running_A)
     = snapshot (snd (stopFrp 0 running_A)).
Proof.
  assert (Hin : 0 ∈ configs running_A) by (vm_compute; apply list_elem_of_here).
  assert (Hc : heap running_A !! 0 = Some cfgA_running) by (vm_compute; reflexivity).
  assert (Hp : processes running_A !! id cfgA_running = Some 0)
    by (vm_compute; reflexivity).
  split; [exact Hin |]. split; [exact Hc |]. split; [exact Hp |].
  destruct (renderer_list_follows_listed_object running_A 0 cfgA_running
              running_A_unique running_A_live Hin Hc) as [H _].
  destruct (H 0 Hp) as [_ H2]. exact H2.
Defined.


Lemma save_leaves_child_on_former_object_witness :
  let s := running_A_edit_received in
  let s' := snd (saveConfig sample_parse 1 s) in
  let s'' := snd (dispatch 0 (Close None) s') in
  heap s !! 1 = Some cfgA_edited /\ heap s !! 0 = Some cfgA_running
  /\ listeners s !! 0 = Some 0
  /\ processes s' = processes s
  /\ getConfig "1" s' = (Normal (Some 1), s')
  /\ heap s'' !! 1 = Some (with_parsedConfig [("serverPort", "7100")] cfgA_edited)
  /\ heap s'' !! 0 = Some (with_isRunning false cfgA_running).
Proof.
  intros s s' s''.
  assert (Hc1 : heap s !! 1 = Some cfgA_edited) by (vm_compute; reflexivity).
  assert (Hc0 : heap s !! 0 = Some cfgA_running) by (vm_compute; reflexivity).
  assert (Hl : listeners s !! 0 = Some 0) by (vm_compute; reflexivity).
  destruct (save_leaves_child_on_former_object sample_parse s 0 1 cfgA_running
              cfgA_edited [("serverPort", "7100")] 0 Hc1 eq_refl Hc0)
    as (H1 & _ & H3 & _ & H5 & H6 & _); [discriminate | exact Hl |].
  auto 10.
Defined.

Lemma save_keeps_id_order_witness :
  heap registry_A_edit_received !! 1 = Some cfgA_edited
  /\ (id <$> snapshot registry_A_edit_received) = ["1"]
  /\ (id <$> snapshot (snd (saveConfig sample_parse 1 registry_A_edit_received)))
     = ["1"]
  /\ (id <$> snapshot (snd (exec sample_parse (OpSave cfgB) registry_A)))
     = ["1"; "2"].
Proof.
  assert (Hc : heap registry_A_edit_received !! 1 = Some cfgA_edited)
    by (vm_compute; reflexivity).
  split; [exact Hc |]. split; [vm_compute; reflexivity |]. split.
  - rewrite (save_keeps_id_order sample_parse registry_A_edit_received 1
               cfgA_edited [("serverPort", "7100")] Hc eq_refl).
    vm_compute. reflexivity.
  - change (exec sample_parse (OpSave cfgB) registry_A)
      with (saveConfig sample_parse (fresh (dom (heap registry_A)))
              (set_heap (<[fresh (dom (heap registry_A)) := cfgB]> (heap registry_A))
                 registry_A)).
    rewrite (save_keeps_id_order sample_parse _ _ cfgB [("serverPort", "7001")])
      by (vm_compute; reflexivity).
    vm_compute. reflexivity.
Defined.
